(** * rx-query: a shallow embedding of [src/rx-query/query.ts]

    The file has two parts.  The first part holds the definitions:
    - [Js]: the JavaScript values that flow through the library as query
      parameters, fetched data and errors, with [JSON.stringify];
    - [Rx]: the RxJS operators that [query.ts] pipes together, read as
      transformers of timed traces;
    - [RxQuery]: the functions of [query.ts] themselves, written operator by
      operator as in the source;
    - the vocabulary in which the properties are stated.
    The second part states and proves the properties of the specification. *)

From Stdlib Require Import List String Ascii ZArith Lia Bool Arith PeanoNat.
From Stdlib Require Import DecimalString Sorted.
From Stdlib Require DecimalPos DecimalZ.
Import ListNotations.

Set Implicit Arguments.
Set Warnings "-register-all".
Local Open Scope string_scope.
Local Open Scope list_scope.
Local Open Scope nat_scope.

(** JavaScript's [+] on strings. *)
Notation "a +++ b" := (String.append a b) (at level 60, right associativity).

(* ================================================================== *)
(** * JavaScript values *)
(* ================================================================== *)

Module Js.

(** A JavaScript value as far as this program looks at one.  Numbers are the
    integers (printed in decimal, as JavaScript prints every integer below
    10^21); a string is a list of code units below 256.  An object lists its
    own enumerable properties in insertion order, which is the order
    [JSON.stringify] walks them in; a well-formed object has no key twice. *)
Inductive JsValue : Type :=
| JUndefined
| JNull
| JBool (b : bool)
| JNum (n : Z)
| JStr (s : string)
| JArr (items : list JsValue)
| JObj (props : list (string * JsValue)).

(** [typeof v] *)
Definition typeof (v : JsValue) : string :=
  match v with
  | JUndefined => "undefined"
  | JNull => "object"
  | JBool _ => "boolean"
  | JNum _ => "number"
  | JStr _ => "string"
  | JArr _ => "object"
  | JObj _ => "object"
  end.

Definition isUndefined (v : JsValue) : bool :=
  match v with JUndefined => true | _ => false end.

Definition isNull (v : JsValue) : bool :=
  match v with JNull => true | _ => false end.

(** [Array.prototype.includes] on an array of strings. *)
Definition includes (xs : list string) (x : string) : bool :=
  existsb (String.eqb x) xs.

(** The double quote and the backslash, by their codes. *)
Definition dquote : ascii := Eval cbv in ascii_of_nat 34.
Definition backslash : ascii := Eval cbv in ascii_of_nat 92.

Definition str1 (c : ascii) : string := String c EmptyString.

(** Number::toString for an integer that a JavaScript number holds exactly
    (at most 2^53 - 1 in absolute value): all its decimal digits.  Beyond,
    JavaScript rounds the digits, and from 10^21 on it writes an exponent;
    the model does not follow it there. *)
Definition numberToString (n : Z) : string :=
  NilZero.string_of_int (Z.to_int n).

Definition hexDigit (n : nat) : ascii :=
  nth n ["0"; "1"; "2"; "3"; "4"; "5"; "6"; "7";
         "8"; "9"; "a"; "b"; "c"; "d"; "e"; "f"]%char "0"%char.

(** One code unit inside QuoteJSONString: the quote, the backslash and the
    control characters are escaped, every other unit stands for itself. *)
Definition escapeChar (c : ascii) : string :=
  let n := nat_of_ascii c in
  if (n =? 34)%nat then String backslash (str1 dquote)
  else if (n =? 92)%nat then String backslash (str1 backslash)
  else if (n =? 8)%nat then String backslash "b"
  else if (n =? 12)%nat then String backslash "f"
  else if (n =? 10)%nat then String backslash "n"
  else if (n =? 13)%nat then String backslash "r"
  else if (n =? 9)%nat then String backslash "t"
  else if (n <? 32)%nat then
    String backslash ("u00" +++ String (hexDigit (n / 16)) (str1 (hexDigit (n mod 16))))
  else str1 c.

Fixpoint escape (s : string) : string :=
  match s with
  | EmptyString => EmptyString
  | String c rest => escapeChar c +++ escape rest
  end.

(** QuoteJSONString *)
Definition quote (s : string) : string :=
  String dquote (escape s +++ str1 dquote).

(** [xs.join(sep)] *)
Fixpoint join (sep : string) (xs : list string) : string :=
  match xs with
  | [] => EmptyString
  | [x] => x
  | x :: rest => x +++ sep +++ join sep rest
  end.

(** [JSON.stringify(v)]: [None] is the result [undefined].  Inside an array
    an [undefined] element is written [null]; inside an object a property
    whose value is [undefined] is left out. *)
Fixpoint stringify (v : JsValue) : option string :=
  match v with
  | JUndefined => None
  | JNull => Some "null"
  | JBool b => Some (if b then "true" else "false")
  | JNum n => Some (numberToString n)
  | JStr s => Some (quote s)
  | JArr items =>
      Some ("[" +++ join ","
              (map (fun x => match stringify x with
                             | Some s => s
                             | None => "null"
                             end) items) +++ "]")
  | JObj props =>
      Some ("{" +++ join ","
              (flat_map (fun kx => match stringify (snd kx) with
                                   | Some s => [quote (fst kx) +++ ":" +++ s]
                                   | None => []
                                   end) props) +++ "}")
  end.

(** [a === b] on the results of [JSON.stringify]. *)
Definition sameText (a b : option string) : bool :=
  match a, b with
  | None, None => true
  | Some x, Some y => String.eqb x y
  | _, _ => false
  end.

(** String concatenation [s + v] where [v] is a string, a number or the
    result of [JSON.stringify]. *)
Definition textOf (t : option string) : string :=
  match t with
  | Some s => s
  | None => "undefined"
  end.

Definition toString (v : JsValue) : string :=
  match v with
  | JStr s => s
  | JNum n => numberToString n
  | _ => textOf (stringify v)
  end.

End Js.

(* ================================================================== *)
(** * RxJS observables as timed traces *)
(* ================================================================== *)

Module Rx.

(** Time counts the turns of the JavaScript event loop.  Two notifications
    with the same time happen in the same turn, one synchronously after the
    other in the order of the trace; [timer d] fires [d + 1] turns after it
    was subscribed to, so never in the turn that started it. *)
Abbreviation Time := nat.

(** How an observable ends: never, by [complete], or by [error]. *)
Inductive End : Type :=
| Never
| Completed (t : Time)
| Errored (t : Time) (e : Js.JsValue).

(** What one subscriber sees of a cold observable: the values with the turn
    they arrive in, counted from the subscription, and the end.  [defer]
    builds its observable at the subscription, which a trace counted from
    the subscription already says: it has no operator of its own here. *)
Record Obs (A : Type) : Type := mkObs {
  events : list (Time * A);
  ending : End
}.

Arguments mkObs {A} events ending.

Definition shiftEnd (d : Time) (e : End) : End :=
  match e with
  | Never => Never
  | Completed t => Completed (d + t)
  | Errored t x => Errored (d + t) x
  end.

(** The trace of an observable subscribed to [d] turns later. *)
Definition shift {A} (d : Time) (o : Obs A) : Obs A :=
  mkObs (List.map (fun ev => (d + fst ev, snd ev)) (events o))
        (shiftEnd d (ending o)).

Definition prepend {A} (ev : Time * A) (o : Obs A) : Obs A :=
  mkObs (ev :: events o) (ending o).

(** Nothing is delivered after an error. *)
Definition seal {A} (o : Obs A) : Obs A :=
  match ending o with
  | Errored t _ => mkObs (List.filter (fun ev => fst ev <=? t) (events o)) (ending o)
  | _ => o
  end.

(** The end of several subscriptions run side by side: the first error, or
    else the last completion once all have completed. *)
Definition mergeEnd (a b : End) : End :=
  match a, b with
  | Errored t1 _, Errored t2 _ => if t1 <=? t2 then a else b
  | Errored _ _, _ => a
  | _, Errored _ _ => b
  | Never, _ => Never
  | _, Never => Never
  | Completed t1, Completed t2 => Completed (Nat.max t1 t2)
  end.

(** ** Creation ([of] is written [of_]: the word is reserved) *)

Definition of_ {A} (v : A) : Obs A := mkObs [(0, v)] (Completed 0).

Definition EMPTY {A} : Obs A := mkObs [] (Completed 0).

Definition NEVER {A} : Obs A := mkObs [] Never.

(** [throwError(e)] fails at once.  It is also what a subscriber sees of
    [defer] when the factory throws and of the inner observable of
    [switchMap] when the project throws: both catch the exception and
    pass it on as an error notification. *)
Definition throwError {A} (e : Js.JsValue) : Obs A := mkObs [] (Errored 0 e).

(** [timer(due)] emits [0] once and completes; a negative delay counts as 0. *)
Definition timer (due : Z) : Obs Z :=
  let t := S (Z.to_nat due) in mkObs [(t, 0%Z)] (Completed t).

(** [interval(period)] never ends; its ticks are listed up to [horizon]. *)
Definition interval (horizon : Time) (period : Z) : Obs Z :=
  let p := S (Z.to_nat period) in
  mkObs (List.map (fun i => (S i * p, Z.of_nat i)) (seq 0 (horizon / p))) Never.

(** [scheduled(xs, asyncScheduler)]: one element per scheduled action, each
    action in a turn of its own, then the completion. *)
Definition scheduled {A} (xs : list A) : Obs A :=
  mkObs (combine (seq 1 (List.length xs)) xs) (Completed (S (List.length xs))).

(** ** Operators that act on each value *)

Definition map {A B} (f : A -> B) (o : Obs A) : Obs B :=
  mkObs (List.map (fun ev => (fst ev, f (snd ev))) (events o)) (ending o).

Definition filter {A} (p : A -> bool) (o : Obs A) : Obs A :=
  mkObs (List.filter (fun ev => p (snd ev)) (events o)) (ending o).

Definition startWith {A} (v : A) (o : Obs A) : Obs A :=
  prepend (0, v) o.

(** [catchError(handler)]: the error ends nothing, the handler's observable
    takes over in the turn of the error. *)
Definition catchError {A} (handler : Js.JsValue -> Obs A) (o : Obs A) : Obs A :=
  match ending o with
  | Errored t e =>
      let r := shift t (handler e) in
      mkObs (events o ++ events r) (ending r)
  | _ => o
  end.

(** [take(n)] *)
Definition take {A} (n : nat) (o : Obs A) : Obs A :=
  match n with
  | 0 => EMPTY
  | S m =>
      match nth_error (events o) m with
      | Some ev => mkObs (firstn n (events o)) (Completed (fst ev))
      | None => o
      end
  end.

(** [distinctUntilChanged(compare)]: a value is dropped when [compare] holds
    of the last value let through and it. *)
Fixpoint distinctFrom {A} (compare : A -> A -> bool) (kept : A)
    (evs : list (Time * A)) : list (Time * A) :=
  match evs with
  | [] => []
  | (t, x) :: rest =>
      if compare kept x then distinctFrom compare kept rest
      else (t, x) :: distinctFrom compare x rest
  end.

Definition distinctUntilChanged {A} (compare : A -> A -> bool) (o : Obs A) : Obs A :=
  mkObs (match events o with
         | [] => []
         | (t, x) :: rest => (t, x) :: distinctFrom compare x rest
         end) (ending o).

(** [pairwise()] *)
Fixpoint pairsFrom {A} (previous : A) (evs : list (Time * A)) : list (Time * (A * A)) :=
  match evs with
  | [] => []
  | (t, x) :: rest => (t, (previous, x)) :: pairsFrom x rest
  end.

Definition pairwise {A} (o : Obs A) : Obs (A * A) :=
  mkObs (match events o with
         | [] => []
         | (_, x) :: rest => pairsFrom x rest
         end) (ending o).

(** [concatMap(project)] for a project that returns an array: the elements
    are emitted synchronously, in order, in the turn of the value. *)
Definition concatMap {A B} (project : A -> list B) (o : Obs A) : Obs B :=
  mkObs (flat_map (fun ev => List.map (fun y => (fst ev, y)) (project (snd ev)))
           (events o)) (ending o).

(** ** Operators that combine observables

    Where two subscriptions deliver in the same turn and nothing in the
    operator orders them, the trace lists the one subscribed to first. *)

Fixpoint mergeEvents {A} (xs ys : list (Time * A)) {struct xs} : list (Time * A) :=
  match xs with
  | [] => ys
  | x :: xs' =>
      (fix into (ys : list (Time * A)) : list (Time * A) :=
         match ys with
         | [] => x :: xs'
         | y :: ys' =>
             if fst x <=? fst y then x :: mergeEvents xs' ys
             else y :: into ys'
         end) ys
  end.

(** [merge(a, b)] *)
Definition merge {A} (a b : Obs A) : Obs A :=
  seal (mkObs (mergeEvents (events a) (events b))
              (mergeEnd (ending a) (ending b))).

(** [mergeAll()]: every inner observable is subscribed to in the turn it
    arrives in. *)
Definition mergeAll {A} (o : Obs (Obs A)) : Obs A :=
  fold_right (fun ev rest => merge (shift (fst ev) (snd ev)) rest)
             (mkObs [] (ending o)) (events o).

(** [expand(project)]: every value, of the source or of a projection, is
    emitted and then projected in its turn; the projection is subscribed to
    at once, so what it delivers synchronously comes before the next value
    of the stream it was projected from.  The recursion need not end:
    [None] says that [fuel] nested projections were not enough. *)
Fixpoint expand {A} (fuel : nat) (project : A -> Obs A) (src : Obs A)
    {struct fuel} : option (Obs A) :=
  match fuel with
  | 0 => None
  | S fuel' =>
      (fix each (evs : list (Time * A)) : option (Obs A) :=
         match evs with
         | [] => Some (mkObs [] (ending src))
         | ev :: rest =>
             match expand fuel' project (shift (fst ev) (project (snd ev))),
                   each rest with
             | Some inner, Some others => Some (prepend ev (merge inner others))
             | _, _ => None
             end
         end) (events src)
  end.

(** The first notification of a duration observable.  In RxJS 6, which
    [query.ts] is written against, [debounce] emits its pending value when
    the duration emits and also when it completes, and forwards its
    [error]. *)
Inductive Signal : Type :=
| Silent
| Fires (t : Time)
| Fails (t : Time) (e : Js.JsValue).

Definition firstSignal {B} (o : Obs B) : Signal :=
  match events o with
  | ev :: _ => Fires (fst ev)
  | [] =>
      match ending o with
      | Completed t => Fires t
      | Errored t e => Fails t e
      | Never => Silent
      end
  end.

(** What becomes of the pending value when the source ends. *)
Definition settle {A} (p : A) (sig : Signal) (fin : End) : Obs A :=
  match fin with
  | Completed tc =>
      match sig with
      | Fires due => mkObs [(Nat.min due tc, p)] fin
      | Fails due e => if due <=? tc then mkObs [] (Errored due e)
                       else mkObs [(tc, p)] fin
      | Silent => mkObs [(tc, p)] fin
      end
  | Never =>
      match sig with
      | Fires due => mkObs [(due, p)] fin
      | Fails due e => mkObs [] (Errored due e)
      | Silent => mkObs [] fin
      end
  | Errored te _ =>
      match sig with
      | Fires due => if due <=? te then mkObs [(due, p)] fin else mkObs [] fin
      | Fails due e => if due <=? te then mkObs [] (Errored due e) else mkObs [] fin
      | Silent => mkObs [] fin
      end
  end.

(** [debounce(durationSelector)]: each value replaces the pending one and
    restarts the duration; the pending value is emitted when its duration
    notifies, or when the source completes.  A duration armed earlier
    notifies before a source value of the same turn. *)
Fixpoint debounceFrom {A B} (durationSelector : A -> Obs B)
    (pending : option (A * Signal)) (evs : list (Time * A)) (fin : End) : Obs A :=
  match evs with
  | [] =>
      match pending with
      | Some (p, sig) => settle p sig fin
      | None => mkObs [] fin
      end
  | (t, v) :: rest =>
      let next :=
        debounceFrom durationSelector
          (Some (v, firstSignal (shift t (durationSelector v)))) rest fin in
      match pending with
      | Some (p, Fires due) => if due <=? t then prepend (due, p) next else next
      | Some (p, Fails due e) => if due <=? t then mkObs [] (Errored due e) else next
      | _ => next
      end
  end.

Definition debounce {A B} (durationSelector : A -> Obs B) (o : Obs A) : Obs A :=
  debounceFrom durationSelector None (events o) (ending o).

(** What a subscription delivers until it is unsubscribed from in turn [t]. *)
Definition upTo {A} (t : Time) (o : Obs A) : Obs A :=
  mkObs (List.filter (fun ev => fst ev <=? t) (events o))
        (match ending o with
         | Errored te e => if te <=? t then Errored te e else Never
         | Completed tc => if tc <=? t then Completed tc else Never
         | Never => Never
         end).

(** [switchMap(project)]: each outer value unsubscribes from the previous
    projection and subscribes to its own. *)
Fixpoint switchFrom {A B} (project : A -> Obs B) (evs : list (Time * A))
    (fin : End) : Obs B :=
  match evs with
  | [] => mkObs [] fin
  | ev :: rest =>
      let inner := shift (fst ev) (project (snd ev)) in
      match rest with
      | [] => seal (mkObs (events inner) (mergeEnd fin (ending inner)))
      | next :: _ =>
          let seen := upTo (fst next) inner in
          match ending seen with
          | Errored _ _ => seen
          | _ =>
              let later := switchFrom project rest fin in
              mkObs (events seen ++ events later) (ending later)
          end
      end
  end.

Definition switchMap {A B} (project : A -> Obs B) (o : Obs A) : Obs B :=
  switchFrom project (events o) (ending o).

(** The latest value an observable has delivered by turn [t]. *)
Definition latestAt {B} (t : Time) (evs : list (Time * B)) : option B :=
  match rev (List.filter (fun ev => fst ev <=? t) evs) with
  | ev :: _ => Some (snd ev)
  | [] => None
  end.

(** [withLatestFrom(other)]: the other observable is subscribed to first; a
    source value is dropped while the other has delivered nothing. *)
Definition withLatestFrom {A B} (other : Obs B) (o : Obs A) : Obs (A * B) :=
  seal (mkObs
          (flat_map (fun ev =>
                       match latestAt (fst ev) (events other) with
                       | Some b => [(fst ev, (snd ev, b))]
                       | None => []
                       end) (events o))
          (match ending other with
           | Errored te e => mergeEnd (ending o) (Errored te e)
           | _ => ending o
           end)).

(** ** One listener

    [finalize] and [share] leave what their single listener sees unchanged:
    [share] sits under a [defer] in [query], so every listener of the stream
    that [query] returns has a [share] of its own.  The listener that
    unsubscribes in turn [t] sees nothing from that turn on, and the callback
    of [finalize] runs in that turn. *)
Definition finalize {A} (o : Obs A) : Obs A := o.

Definition share {A} (o : Obs A) : Obs A := o.

Definition unsubscribedAt {A} (t : Time) (o : Obs A) : Obs A :=
  mkObs (List.filter (fun ev => fst ev <? t) (events o))
        (match ending o with
         | Errored te e => if te <? t then Errored te e else Never
         | Completed tc => if tc <? t then Completed tc else Never
         | Never => Never
         end).

End Rx.

(* ================================================================== *)
(** * query.ts *)
(* ================================================================== *)

Module RxQuery.

Import Js Rx.

(** ** The types that [query.ts] imports from [./types] *)

(** [QueryOutput]: a property that is absent is [None].  The attempt counter
    [retries] starts at 0 and is only ever incremented. *)
Record QueryOutput : Type := mkOutput {
  state : string;
  data : option JsValue;
  error : option JsValue;
  retries : option nat
}.

(** What a call of the user's fetch function does: it returns an
    observable, or it throws before it has returned one. *)
Inductive Called : Type :=
| Returned (fetched : Obs JsValue)
| Threw (thrown : JsValue).

(** The user's fetch function [query(params)].  It may answer differently
    each time it is called; in one chain of attempts [invoke(n)] makes the
    call number [n] (from 0), which the model passes along. *)
Definition QueryFn : Type := JsValue -> nat -> Called.

(** [QueryInvoker]; the first argument is the fuel of [Rx.expand]. *)
Definition QueryInvoker : Type :=
  nat -> string -> JsValue -> option (Obs QueryOutput).

(** A property that is present holds a value or [undefined]. *)
Inductive Field (A : Type) : Type :=
| Undefined
| Value (a : A).

Arguments Undefined {A}.
Arguments Value {A} a.

Inductive RetriesValue : Type :=
| RetriesNumber (n : Z)
| RetriesFunction (retry : nat -> JsValue -> bool).

Inductive RetryDelayValue : Type :=
| DelayNumber (ms : Z)
| DelayFunction (delay : nat -> Z).

Inductive RefetchIntervalValue : Type :=
| IntervalNumber (ms : Z)
| IntervalObservable (ticks : Obs JsValue).

Module Config.

(** [QueryConfig] is [Fields option]: any property may be absent.
    [Required<QueryConfig>] is [Fields (fun X => X)]: every property is
    present, and may still hold [undefined]. *)
Record Fields (F : Type -> Type) : Type := mk {
  retries : F (Field RetriesValue);
  retryDelay : F (Field RetryDelayValue);
  refetchOnWindowFocus : F (Field bool);
  refetchInterval : F (Field RefetchIntervalValue);
  staleTime : F (Field Z);
  cacheTime : F (Field Z)
}.

Arguments mk {F}.

End Config.

Definition QueryConfig : Type := Config.Fields option.
Definition RequiredQueryConfig : Type := Config.Fields (fun X => X).

(** The triggers of a [Revalidator] that [query.ts] emits. *)
Inductive Trigger : Type :=
| QuerySubscribe
| QueryUnsubscribe
| Interval
| Focus.

(** [Revalidator].  Its [params] are the query parameters, except in the
    event that [finalize] builds, which stores the event it took from
    [params$] there. *)
Inductive Revalidator : Type :=
| mkRevalidator (key : string) (query : QueryInvoker) (trigger : Trigger)
    (params : RevalidatorParams) (config : RequiredQueryConfig)
with RevalidatorParams : Type :=
| ParamsValue (v : JsValue)
| ParamsEvent (r : Revalidator).

Definition key (r : Revalidator) : string :=
  match r with mkRevalidator k _ _ _ _ => k end.

Definition trigger (r : Revalidator) : Trigger :=
  match r with mkRevalidator _ _ t _ _ => t end.

Definition params (r : Revalidator) : RevalidatorParams :=
  match r with mkRevalidator _ _ _ p _ => p end.

Definition config (r : Revalidator) : RequiredQueryConfig :=
  match r with mkRevalidator _ _ _ _ c => c end.

(** An object with its identity, which is what [===] compares. *)
Record Ref (A : Type) : Type := mkRef {
  address : nat;
  contents : A
}.

Definition sameRef {A} (a b : Ref A) : bool := address a =? address b.

(** ** The cache that [query.ts] imports from [./cache]

    Only its shape is used here: an observable of snapshots, each a map
    from cache key to a group that holds the current result. *)
Record Group : Type := mkGroup {
  result : Ref QueryOutput
}.

Definition Cache : Type := string -> option Group.

(** ** DEFAULT_QUERY_CONFIG *)

Definition DEFAULT_QUERY_CONFIG : RequiredQueryConfig :=
  Config.mk (F := fun X => X)
    (Value (RetriesNumber 3))
    (Value (DelayFunction (fun n => (Z.of_nat n + 1) * 1000)%Z))
    (Value false)
    Undefined
    (Value 0%Z)
    (Value 300000%Z).

(** ** createRetryDelay, createRetryCondition *)

(** [n || 0] *)
Definition orZero (n : Z) : Z := if (n =? 0)%Z then 0%Z else n.

Definition createRetryDelay (queryConfig : RequiredQueryConfig) : nat -> Z :=
  match Config.retryDelay queryConfig with
  | Value (DelayNumber ms) => fun _ => ms
  | Value (DelayFunction delay) => delay
  | Undefined => fun _ => 0%Z
  end.

Definition createRetryCondition (queryConfig : RequiredQueryConfig)
    : nat -> JsValue -> bool :=
  match Config.retries queryConfig with
  | Value (RetriesNumber r) => fun n _ => (Z.of_nat n <? orZero r)%Z
  | Value (RetriesFunction retry) => retry
  | Undefined => fun _ _ => false
  end.

(** ** queryKeyAndParamsToCacheKey *)

Definition queryKeyAndParamsToCacheKey (key : string) (params : JsValue) : string :=
  if negb (isUndefined params) && negb (isNull params) then
    key +++ "-" +++
      (if includes ["string"; "number"] (typeof params)
       then toString params
       else textOf (stringify params))
  else key.

(** ** invokeQuery, the closure inside [query] *)

Section Invoker.

Variable query : QueryFn.
Variable queryConfig : RequiredQueryConfig.

Definition retryCondition : nat -> JsValue -> bool :=
  createRetryCondition queryConfig.

Definition retryDelay : nat -> Z :=
  createRetryDelay queryConfig.

(** [result.retries || 0] and [result.error] *)
Definition retriesOf (result : QueryOutput) : nat :=
  match retries result with Some n => n | None => 0 end.

Definition errorOf (result : QueryOutput) : JsValue :=
  match error result with Some e => e | None => JUndefined end.

(** [query(params)] is called before [map] and [catchError] are piped onto
    what it returns: when the call throws, [invoke] throws.  [invoke(0)] is
    called by the factory of [defer] and [invoke(n + 1)] by the project of
    [switchMap], and both answer an exception with an error notification
    in that turn ([throwError]). *)
Definition invoke (params : JsValue) (retries : nat) : Obs QueryOutput :=
  match query params retries with
  | Returned fetched =>
      catchError
        (fun error =>
           of_ {| state := "error";
                  data := None;
                  error := Some error;
                  retries := Some retries |})
        (map
           (fun data =>
              {| state := "success";
                 data := Some data;
                 error := None;
                 retries := match retries with 0 => None | _ => Some retries end |})
           fetched)
  | Threw thrown => throwError thrown
  end.

(** The argument of [expand]. *)
Definition retryOrStop (loadingState : string) (params : JsValue)
    (result : QueryOutput) : Obs QueryOutput :=
  if String.eqb (state result) "error"
     && retryCondition (retriesOf result) (errorOf result)
  then
    startWith
      {| state := loadingState;
         data := data result;
         error := error result;
         retries := retries result |}
      (switchMap (fun _ => invoke params (retriesOf result + 1))
         (timer (retryDelay (retriesOf result))))
  else EMPTY.

(** [invoke(0).pipe(expand(...))], before [debounce]. *)
Definition attempts (fuel : nat) (loadingState : string) (params : JsValue)
    : option (Obs QueryOutput) :=
  expand fuel (retryOrStop loadingState params) (invoke params 0).

(** [callResult$] *)
Definition invokeQuery : QueryInvoker :=
  fun fuel loadingState params =>
    option_map
      (debounce (fun result =>
                   if String.eqb (state result) "error" then timer 0 else EMPTY))
      (attempts fuel loadingState params).

End Invoker.

(** ** paramsTrigger, intervalTrigger, focusTrigger *)

Definition paramsTrigger (queryConfig : RequiredQueryConfig)
    (queryParam : Obs JsValue) (key : string) (invokeQuery : QueryInvoker)
    : Obs Revalidator :=
  concatMap
    (fun pair =>
       let previous := fst pair in
       let params := snd pair in
       let unsubscribe :=
         mkRevalidator (queryKeyAndParamsToCacheKey key previous) invokeQuery
           QueryUnsubscribe (ParamsValue previous) queryConfig in
       let init :=
         mkRevalidator (queryKeyAndParamsToCacheKey key params) invokeQuery
           QuerySubscribe (ParamsValue params) queryConfig in
       (if negb (isUndefined previous) then [unsubscribe] else []) ++ [init])
    (pairwise
       (distinctUntilChanged
          (fun a b => sameText (stringify a) (stringify b))
          (startWith JUndefined queryParam))).

(** [horizon] bounds the listing of [interval(...)], which never ends. *)
Definition intervalTrigger (horizon : Time) (queryConfig : RequiredQueryConfig)
    (queryParam : Obs JsValue) (key : string) (invokeQuery : QueryInvoker)
    : Obs Revalidator :=
  match Config.refetchInterval queryConfig with
  | Value refetchInterval =>
      map (fun tick_params =>
             let params := snd tick_params in
             mkRevalidator (queryKeyAndParamsToCacheKey key params) invokeQuery
               Interval (ParamsValue params) queryConfig)
        (withLatestFrom queryParam
           (match refetchInterval with
            | IntervalObservable ticks => ticks
            | IntervalNumber ms => map JNum (interval horizon ms)
            end))
  | Undefined => NEVER
  end.

(** [windowFocus] is [fromEvent(window, 'focus')]: the focus events of the
    host, as the subscriber meets them. *)
Definition focusTrigger (windowFocus : Obs JsValue)
    (queryConfig : RequiredQueryConfig) (queryParam : Obs JsValue)
    (key : string) (invokeQuery : QueryInvoker) : Obs Revalidator :=
  match Config.refetchOnWindowFocus queryConfig with
  | Value true =>
      map (fun event_params =>
             let params := snd event_params in
             mkRevalidator (queryKeyAndParamsToCacheKey key params) invokeQuery
               Focus (ParamsValue params) queryConfig)
        (withLatestFrom queryParam windowFocus)
  | _ => NEVER
  end.

(** ** parseInput *)

(** What follows [key] in a call of [query], by its two overloads:
    [query(key, query, config?)] and
    [query(key, observableOrStaticParam, query, config?)].  The first input
    is a function exactly in the first form. *)
Inductive QueryParamInput : Type :=
| StaticParam (v : JsValue)
| ObservableParam (o : Obs JsValue).

Inductive Inputs : Type :=
| WithoutParam (query : QueryFn) (config : option QueryConfig)
| WithParam (param : QueryParamInput) (query : QueryFn)
    (config : option QueryConfig).

Record ParsedInput : Type := mkParsed {
  parsedQuery : QueryFn;
  queryParam : Obs JsValue;
  queryConfig : RequiredQueryConfig
}.

(** One property of [{ ...defaults, ...input }]: the input's when the input
    has the property, even if it holds [undefined]. *)
Definition spreadField {A} (default : A) (input : option A) : A :=
  match input with
  | Some v => v
  | None => default
  end.

(** [{ ...defaults, ...inputConfig }]; spreading [undefined] adds nothing. *)
Definition spread (defaults : RequiredQueryConfig)
    (inputConfig : option QueryConfig) : RequiredQueryConfig :=
  match inputConfig with
  | None => defaults
  | Some input =>
      Config.mk (F := fun X => X)
        (spreadField (Config.retries defaults) (Config.retries input))
        (spreadField (Config.retryDelay defaults) (Config.retryDelay input))
        (spreadField (Config.refetchOnWindowFocus defaults)
           (Config.refetchOnWindowFocus input))
        (spreadField (Config.refetchInterval defaults)
           (Config.refetchInterval input))
        (spreadField (Config.staleTime defaults) (Config.staleTime input))
        (spreadField (Config.cacheTime defaults) (Config.cacheTime input))
  end.

Definition parseInput (inputs : Inputs) : ParsedInput :=
  let queryParam :=
    match inputs with
    | WithParam (ObservableParam firstInput) _ _ => firstInput
    | WithParam (StaticParam firstInput) _ _ => of_ firstInput
    | WithoutParam _ _ => of_ JNull
    end in
  let query :=
    match inputs with
    | WithoutParam firstInput _ => firstInput
    | WithParam _ secondInput _ => secondInput
    end in
  let inputConfig :=
    match inputs with
    | WithParam _ _ thirdInput => thirdInput
    | WithoutParam _ secondInput => secondInput
    end in
  mkParsed query queryParam (spread DEFAULT_QUERY_CONFIG inputConfig).

(** ** query *)

Section Query.

Variable key : string.
Variable inputs : Inputs.

(** The host: the snapshots of [cache] and the focus events of the window,
    as the listener meets them, and the horizon of [interval]. *)
Variable cache : Obs Cache.
Variable windowFocus : Obs JsValue.
Variable horizon : Time.

Definition theQueryConfig : RequiredQueryConfig := queryConfig (parseInput inputs).

Definition theQueryParam : Obs JsValue := queryParam (parseInput inputs).

Definition theInvokeQuery : QueryInvoker :=
  invokeQuery (parsedQuery (parseInput inputs)) theQueryConfig.

Definition params' : Obs Revalidator :=
  paramsTrigger theQueryConfig theQueryParam key theInvokeQuery.

Definition focus' : Obs Revalidator :=
  focusTrigger windowFocus theQueryConfig theQueryParam key theInvokeQuery.

Definition interval' : Obs Revalidator :=
  intervalTrigger horizon theQueryConfig theQueryParam key theInvokeQuery.

(** What [triggersSubscription] would pass to [revalidate.next] if it were
    never unsubscribed from. *)
Definition triggers : Obs Revalidator :=
  mergeAll (scheduled [params'; focus'; interval']).

(** The stream that the factory of [defer] returns. *)
Definition results : Obs (option (Ref QueryOutput)) :=
  share
    (finalize
       (distinctUntilChanged
          (fun a b =>
             match a, b with
             | Some x, Some y => sameRef x y
             | None, None => true
             | _, _ => false
             end)
          (map (option_map result)
             (filter (fun v => match v with Some _ => true | None => false end)
                (map (fun c_k => fst c_k (RxQuery.key (snd c_k)))
                   (withLatestFrom params' cache)))))).

(** What the callback of [finalize] passes to [revalidate.next], counted
    from the turn it runs in. *)
Definition finalized : Obs Revalidator :=
  map (fun params =>
         mkRevalidator (RxQuery.key params) theInvokeQuery QueryUnsubscribe
           (ParamsEvent params) theQueryConfig)
    (take 1 params').

(** One listener subscribes in turn 0 and unsubscribes in turn [detach]:
    what it has seen, and what has been passed to [revalidate.next] on its
    behalf, by the triggers up to the teardown and by [finalize] from it. *)
Definition listened (detach : Time) : Obs (option (Ref QueryOutput)) :=
  unsubscribedAt detach results.

Definition revalidated (detach : Time) : list (Time * Revalidator) :=
  events (unsubscribedAt detach triggers) ++ events (shift detach finalized).

End Query.

End RxQuery.

(* ================================================================== *)
(** * The vocabulary of the statements *)
(* ================================================================== *)

Import Js Rx RxQuery.

(** The three results that [invoke] and [retryOrStop] build. *)
Definition successResult (n : nat) (d : JsValue) : QueryOutput :=
  {| state := "success";
     data := Some d;
     error := None;
     retries := match n with 0 => None | _ => Some n end |}.

Definition errorResult (n : nat) (e : JsValue) : QueryOutput :=
  {| state := "error"; data := None; error := Some e; retries := Some n |}.

Definition loadingResult (loadingState : string) (n : nat) (e : JsValue)
    : QueryOutput :=
  {| state := loadingState; data := None; error := Some e; retries := Some n |}.

(** The fetch function keeps its contract when a call returns an
    observable that answers with one value and completes, or that fails
    without a value. *)
Definition succeeds (latency : Time) (d : JsValue) (completes : Time) : Called :=
  Returned (mkObs [(latency, d)] (Completed completes)).

Definition fails (latency : Time) (e : JsValue) : Called :=
  Returned (mkObs [] (Errored latency e)).

(** The turn in which the answer to attempt [n] arrives, when every earlier
    attempt has failed and been retried: attempt [n + 1] is made
    [retryDelay n] after the failure of attempt [n]. *)
Fixpoint arrival (latency : nat -> Time) (delay : nat -> Z) (n : nat) : Time :=
  match n with
  | 0 => latency 0
  | S m => arrival latency delay m + S (Z.to_nat (delay m)) + latency n
  end.

(** The relabelled failures of attempts [0], ..., [count - 1], each in the
    turn of its failure. *)
Definition relabelled (loadingState : string) (latency : nat -> Time)
    (delay : nat -> Z) (err : nat -> JsValue) (count : nat)
    : list (Time * QueryOutput) :=
  List.map (fun i => (arrival latency delay i, loadingResult loadingState i (err i)))
    (seq 0 count).

(** The same failures as they leave [expand]: each raw error with its
    relabelling behind it. *)
Definition rawFailures (loadingState : string) (latency : nat -> Time)
    (delay : nat -> Z) (err : nat -> JsValue) (count : nat)
    : list (Time * QueryOutput) :=
  flat_map (fun i => [(arrival latency delay i, errorResult i (err i));
                      (arrival latency delay i, loadingResult loadingState i (err i))])
    (seq 0 count).

(** A run of the invoker terminates with [final]: [final] is its last
    emission, and the stream then completes. *)
Definition terminatesWith (run : option (Obs QueryOutput)) (final : QueryOutput)
    : Prop :=
  exists earlier t c,
    run = Some (mkObs (earlier ++ [(t, final)]) (Completed c)).

(** An end that is no error. *)
Definition noError (e : End) : Prop :=
  match e with
  | Errored _ _ => False
  | _ => True
  end.

(** Attempt [k] brings the chain to its end: it succeeds, or it fails and
    the retry condition refuses another attempt. *)
Definition settles (query : QueryFn) (cfg : RequiredQueryConfig)
    (params : JsValue) (lat : nat -> Time) (err : nat -> JsValue) (k : nat)
    (final : QueryOutput) (extra : Time) : Prop :=
  (exists d, query params k = succeeds (lat k) d (lat k + extra)
             /\ final = successResult k d)
  \/ (query params k = fails (lat k) (err k)
      /\ retryCondition cfg k (err k) = false
      /\ final = errorResult k (err k) /\ extra = 0).

(** The fetch function and the configuration of the specification's retry
    example: [retries = 2], [retryDelay = () => 0], a fetch that fails on
    attempts 0 and 1 and succeeds on attempt 2. *)
Definition flakyFetch : QueryFn :=
  fun _ n =>
    match n with
    | 0 => fails 0 (JStr "first")
    | 1 => fails 0 (JStr "second")
    | _ => succeeds 0 (JNum 42) 0
    end.

Definition twoRetries : RequiredQueryConfig :=
  Config.mk (F := fun X => X)
    (Value (RetriesNumber 2))
    (Value (DelayFunction (fun _ => 0%Z)))
    (Value false) Undefined (Value 0%Z) (Value 300000%Z).

(** The configuration a caller passed to [query], if any. *)
Definition inputConfigOf (inputs : Inputs) : option QueryConfig :=
  match inputs with
  | WithoutParam _ config => config
  | WithParam _ _ config => config
  end.

(** What a merged property must be: the caller's, when the caller's
    configuration has the property, and the default otherwise. *)
Definition supplied {A} (property : QueryConfig -> option A)
    (given : option QueryConfig) (default : A) : A :=
  match given with
  | Some c => match property c with
              | Some v => v
              | None => default
              end
  | None => default
  end.

(** A fetch that fails every call, and [{ retries: undefined }]. *)
Definition alwaysFails : QueryFn := fun _ _ => fails 0 (JStr "down").

Definition retriesUndefined : QueryConfig :=
  Config.mk (F := option) (Some Undefined) None None None None None.

(** ** Equality of parameter values *)

Fixpoint lookupProp (k : string) (props : list (string * JsValue)) : option JsValue :=
  match props with
  | [] => None
  | p :: rest => if String.eqb k (fst p) then Some (snd p) else lookupProp k rest
  end.

(** Structural (deep) equality as the specification speaks of it: equal
    primitives, arrays equal element by element, objects with the same
    keys and equal values under each key, in whatever order the keys were
    inserted. *)
Fixpoint deepEqual (a b : JsValue) {struct a} : bool :=
  match a, b with
  | JUndefined, JUndefined => true
  | JNull, JNull => true
  | JBool x, JBool y => Bool.eqb x y
  | JNum x, JNum y => (x =? y)%Z
  | JStr x, JStr y => String.eqb x y
  | JArr xs, JArr ys =>
      (fix all (xs ys : list JsValue) : bool :=
         match xs, ys with
         | [], [] => true
         | x :: xs', y :: ys' => deepEqual x y && all xs' ys'
         | _, _ => false
         end) xs ys
  | JObj ps, JObj qs =>
      (List.length ps =? List.length qs)
      && (fix all (ps : list (string * JsValue)) : bool :=
            match ps with
            | [] => true
            | p :: ps' =>
                match lookupProp (fst p) qs with
                | Some y => deepEqual (snd p) y
                | None => false
                end && all ps'
            end) ps
  | _, _ => false
  end.

(** The same, with the keys of every object also in the same order. *)
Fixpoint orderedEqual (a b : JsValue) {struct a} : bool :=
  match a, b with
  | JUndefined, JUndefined => true
  | JNull, JNull => true
  | JBool x, JBool y => Bool.eqb x y
  | JNum x, JNum y => (x =? y)%Z
  | JStr x, JStr y => String.eqb x y
  | JArr xs, JArr ys =>
      (fix all (xs ys : list JsValue) : bool :=
         match xs, ys with
         | [], [] => true
         | x :: xs', y :: ys' => orderedEqual x y && all xs' ys'
         | _, _ => false
         end) xs ys
  | JObj ps, JObj qs =>
      (fix all (ps qs : list (string * JsValue)) : bool :=
         match ps, qs with
         | [], [] => true
         | p :: ps', q :: qs' =>
             String.eqb (fst p) (fst q) && orderedEqual (snd p) (snd q)
             && all ps' qs'
         | _, _ => false
         end) ps qs
  | _, _ => false
  end.

(** The parameters that [queryKeyAndParamsToCacheKey] hands to
    [JSON.stringify]: neither [undefined] nor [null], neither a string nor
    a number. *)
Definition stringified (params : JsValue) : bool :=
  negb (isUndefined params) && negb (isNull params)
  && negb (includes ["string"; "number"] (typeof params)).

(** The integers that a JavaScript number holds exactly, up to
    [Number.MAX_SAFE_INTEGER]. *)
Definition safeInteger (n : Z) : Prop := (Z.abs n <= 2 ^ 53 - 1)%Z.

(** Induction over a value and the values inside it. *)
Section JsValueInduction.

Variable P : JsValue -> Prop.
Hypothesis PUndefined : P JUndefined.
Hypothesis PNull : P JNull.
Hypothesis PBool : forall b, P (JBool b).
Hypothesis PNum : forall n, P (JNum n).
Hypothesis PStr : forall s, P (JStr s).
Hypothesis PArr : forall items, Forall P items -> P (JArr items).
Hypothesis PObj : forall props, Forall (fun p => P (snd p)) props -> P (JObj props).

Fixpoint JsValue_nested_ind (v : JsValue) : P v :=
  match v with
  | JUndefined => PUndefined
  | JNull => PNull
  | JBool b => PBool b
  | JNum n => PNum n
  | JStr s => PStr s
  | JArr items =>
      PArr ((fix each (l : list JsValue) : Forall P l :=
               match l with
               | [] => Forall_nil P
               | x :: rest => Forall_cons x (JsValue_nested_ind x) (each rest)
               end) items)
  | JObj props =>
      PObj ((fix each (l : list (string * JsValue)) : Forall (fun p => P (snd p)) l :=
               match l with
               | [] => Forall_nil _
               | p :: rest =>
                   Forall_cons (P := fun p => P (snd p)) p
                     (JsValue_nested_ind (snd p)) (each rest)
               end) props)
  end.

End JsValueInduction.

(** ** The events of the parameter trigger *)

Definition subscribeTo (queryConfig : RequiredQueryConfig) (key : string)
    (invokeQuery : QueryInvoker) (params : JsValue) : Revalidator :=
  mkRevalidator (queryKeyAndParamsToCacheKey key params) invokeQuery
    QuerySubscribe (ParamsValue params) queryConfig.

Definition unsubscribeFrom (queryConfig : RequiredQueryConfig) (key : string)
    (invokeQuery : QueryInvoker) (params : JsValue) : Revalidator :=
  mkRevalidator (queryKeyAndParamsToCacheKey key params) invokeQuery
    QueryUnsubscribe (ParamsValue params) queryConfig.

(** What the parameter values [evs] bring about when [previous] is the
    last value that was let through: a value with the JSON text of
    [previous] brings nothing; another one brings a subscribe event for its
    cache key, with an unsubscribe event for the cache key of [previous]
    before it unless [previous] is [undefined]. *)
Fixpoint paramChanges (queryConfig : RequiredQueryConfig) (key : string)
    (invokeQuery : QueryInvoker) (previous : JsValue)
    (evs : list (Time * JsValue)) : list (Time * Revalidator) :=
  match evs with
  | [] => []
  | (t, params) :: rest =>
      if sameText (stringify previous) (stringify params)
      then paramChanges queryConfig key invokeQuery previous rest
      else
        (if isUndefined previous then []
         else [(t, unsubscribeFrom queryConfig key invokeQuery previous)])
        ++ (t, subscribeTo queryConfig key invokeQuery params)
        :: paramChanges queryConfig key invokeQuery params rest
  end.

(** Trigger and cache key of each event, for reading a trace. *)
Definition summary (evs : list (Time * Revalidator))
    : list (Time * Trigger * string) :=
  List.map (fun ev => (fst ev, trigger (snd ev), RxQuery.key (snd ev))) evs.

(** Sample values: [{a: 1}], [{a: 2}], and [{a: 1, b: 2}] with its keys
    in both orders. *)
Definition a_is_1 : JsValue := JObj [("a", JNum 1)].
Definition a_is_2 : JsValue := JObj [("a", JNum 2)].
Definition ab : JsValue := JObj [("a", JNum 1); ("b", JNum 2)].
Definition ba : JsValue := JObj [("b", JNum 2); ("a", JNum 1)].

Definition noInvoker : QueryInvoker := fun _ _ _ => None.

(** A cache snapshot that holds one group, under [key]. *)
Definition cacheWith (key : string) (r : Ref QueryOutput) : Cache :=
  fun k => if String.eqb k key then Some (mkGroup r) else None.

(** A parameter stream of two values: [1], then [2] three turns later. *)
Definition oneThenTwo : Obs JsValue := mkObs [(0, JNum 1); (3, JNum 2)] Never.

(** A parameter stream whose first value is [undefined] and whose second
    is [1]. *)
Definition undefinedThenOne : Obs JsValue :=
  mkObs [(0, JUndefined); (3, JNum 1)] Never.

(** ** Reading a log of revalidation events *)

(** The events that open or close a subscription of the cache. *)
Definition isSubscription (r : Revalidator) : bool :=
  match trigger r with
  | QuerySubscribe | QueryUnsubscribe => true
  | _ => false
  end.

(** Every unsubscribe event names the cache key of the latest subscribe
    event, and that subscription has not been closed before; [opened] is
    the cache key that is open when the log starts. *)
Fixpoint closesLatest (opened : option string) (evs : list (Time * Revalidator))
    : bool :=
  match evs with
  | [] => true
  | ev :: rest =>
      match trigger (snd ev) with
      | QuerySubscribe => closesLatest (Some (RxQuery.key (snd ev))) rest
      | QueryUnsubscribe =>
          match opened with
          | Some k => String.eqb k (RxQuery.key (snd ev)) && closesLatest None rest
          | None => false
          end
      | _ => closesLatest opened rest
      end
  end.

(** The same, and no subscribe event comes while a subscription is open:
    at most one cache key is subscribed to at any time. *)
Fixpoint oneAtATime (opened : option string) (evs : list (Time * Revalidator))
    : bool :=
  match evs with
  | [] => true
  | ev :: rest =>
      match trigger (snd ev) with
      | QuerySubscribe =>
          match opened with
          | None => oneAtATime (Some (RxQuery.key (snd ev))) rest
          | Some _ => false
          end
      | QueryUnsubscribe =>
          match opened with
          | Some k => String.eqb k (RxQuery.key (snd ev)) && oneAtATime None rest
          | None => false
          end
      | _ => oneAtATime opened rest
      end
  end.


(** The refetch interval of a configuration, when it is an observable,
    does not fail. *)
Definition intervalNeverFails (cfg : RequiredQueryConfig) : Prop :=
  match Config.refetchInterval cfg with
  | Value (IntervalObservable ticks) => noError (ending ticks)
  | _ => True
  end.

(** A fetch that fails on every call, the call number in its error; and a
    configuration whose [retries] is a predicate that never refuses. *)
Definition failsWithCallNumber : QueryFn :=
  fun _ n => fails 0 (JNum (Z.of_nat n)).

Definition retryForever : RequiredQueryConfig :=
  Config.mk (F := fun X => X)
    (Value (RetriesFunction (fun _ _ => true)))
    (Value (DelayNumber 0%Z))
    (Value false) Undefined (Value 0%Z) (Value 300000%Z).

(** A configuration with [retries: -1]. *)
Definition minusOneRetries : RequiredQueryConfig :=
  Config.mk (F := fun X => X)
    (Value (RetriesNumber (-1)%Z))
    (Value (DelayNumber 0%Z))
    (Value false) Undefined (Value 0%Z) (Value 300000%Z).

(** [{ refetchOnWindowFocus: true }], as the refresh-on-focus example
    passes it, and focus events in turns 4 and 9. *)
Definition focusOn : QueryConfig :=
  Config.mk (F := option) None None (Some (Value true)) None None None.

Definition twoFocusEvents : Obs JsValue :=
  mkObs [(4, JNull); (9, JNull)] Never.

(** The configuration that [query(key, fetchFn, { refetchOnWindowFocus:
    true })] resolves. *)
Definition focusConfig : RequiredQueryConfig :=
  queryConfig (parseInput (WithoutParam alwaysFails (Some focusOn))).

(** A refetch interval of 2 ms on top of the defaults. *)
Definition everyTwo : RequiredQueryConfig :=
  Config.mk (F := fun X => X)
    (Value (RetriesNumber 3))
    (Value (DelayNumber 0%Z))
    (Value false) (Value (IntervalNumber 2%Z)) (Value 0%Z) (Value 300000%Z).

(** Two snapshots of a cache that holds the same result object under
    ["k"], and then a third with a new result object. *)
Definition threeSnapshots : Obs Cache :=
  mkObs [(2, cacheWith "k" (mkRef 1 (successResult 0 (JNum 7))));
         (3, cacheWith "k" (mkRef 1 (successResult 0 (JNum 7))));
         (5, cacheWith "k" (mkRef 2 (successResult 0 (JNum 8))))] Never.




(* ================================================================== *)
(** * Facts about the operators *)
(* ================================================================== *)

Lemma mergeEvents_nil_r : forall A (xs : list (Time * A)), mergeEvents xs [] = xs.
Proof. intros A xs. destruct xs; reflexivity. Qed.

Lemma expand_nil : forall A fuel (project : A -> Obs A) fin,
  expand (S fuel) project (mkObs [] fin) = Some (mkObs [] fin).
Proof. reflexivity. Qed.

Lemma expand_cons : forall A fuel (project : A -> Obs A) ev rest fin,
  expand (S fuel) project (mkObs (ev :: rest) fin) =
  match expand fuel project (shift (fst ev) (project (snd ev))),
        expand (S fuel) project (mkObs rest fin) with
  | Some inner, Some others => Some (prepend ev (merge inner others))
  | _, _ => None
  end.
Proof. reflexivity. Qed.

Lemma merge_nil_completed_r : forall A (xs : list (Time * A)) a b,
  merge (mkObs xs (Completed a)) (mkObs [] (Completed b)) =
  mkObs xs (Completed (Nat.max a b)).
Proof.
  intros A xs a b. unfold merge, seal. simpl.
  rewrite mergeEvents_nil_r. reflexivity.
Qed.

Lemma merge_nil_completed_l : forall A (ys : list (Time * A)) a b,
  merge (mkObs [] (Completed a)) (mkObs ys (Completed b)) =
  mkObs ys (Completed (Nat.max a b)).
Proof. reflexivity. Qed.

Lemma arrival_le : forall latency delay i j,
  i <= j -> arrival latency delay i <= arrival latency delay j.
Proof.
  intros latency delay i j H. induction H as [|j H IH]; simpl; lia.
Qed.

Lemma arrival_lt : forall latency delay i j,
  i < j -> arrival latency delay i < arrival latency delay j.
Proof.
  intros latency delay i j H.
  apply Nat.lt_le_trans with (arrival latency delay (S i)).
  - simpl. lia.
  - apply arrival_le. lia.
Qed.

Section Invoke.

Variable query : QueryFn.
Variable params : JsValue.

Lemma invoke_fails : forall n l e,
  query params n = fails l e ->
  invoke query params n = mkObs [(l, errorResult n e)] (Completed l).
Proof.
  intros n l e H. unfold invoke, catchError, map. rewrite H. simpl.
  rewrite Nat.add_0_r. reflexivity.
Qed.

Lemma invoke_succeeds : forall n l d c,
  query params n = succeeds l d c ->
  invoke query params n = mkObs [(l, successResult n d)] (Completed c).
Proof.
  intros n l d c H. unfold invoke, catchError, map. rewrite H. reflexivity.
Qed.

End Invoke.

Section Chain.

Variable query : QueryFn.
Variable cfg : RequiredQueryConfig.
Variable loadingState : string.
Variable params : JsValue.

(** Attempts [0 .. k - 1] fail and are retried; attempt [k] yields [final],
    after which [retryOrStop] stops. *)
Variable k : nat.
Variable lat : nat -> Time.
Variable err : nat -> JsValue.
Variable final : QueryOutput.
Variable extra : Time.

Hypothesis loading_not_error : String.eqb loadingState "error" = false.
Hypothesis failed : forall i, i < k -> query params i = fails (lat i) (err i).
Hypothesis retried : forall i, i < k -> retryCondition cfg i (err i) = true.
Hypothesis settled :
  invoke query params k = mkObs [(lat k, final)] (Completed (lat k + extra)).
Hypothesis stops : retryOrStop query cfg loadingState params final = EMPTY.
Hypothesis error_completes :
  String.eqb (state final) "error" = true -> extra = 0.

Let at_ (i : nat) : Time := arrival lat (retryDelay cfg) i.
Let project := retryOrStop query cfg loadingState params.

Lemma project_loading : forall i e,
  project (loadingResult loadingState i e) = EMPTY.
Proof.
  intros i e. unfold project, retryOrStop, loadingResult.
  cbn [state]. rewrite loading_not_error. reflexivity.
Qed.

Lemma project_error : forall i,
  i < k ->
  project (errorResult i (err i)) =
  startWith (loadingResult loadingState i (err i))
    (switchMap (fun _ => invoke query params (i + 1))
       (timer (retryDelay cfg i))).
Proof.
  intros i Hi. unfold project, retryOrStop, retriesOf, errorOf, errorResult.
  cbn [state retries error]. rewrite String.eqb_refl, (retried Hi). reflexivity.
Qed.

(** The answer to attempt [i], and the turn in which its source ends. *)
Let answer (n i : nat) : QueryOutput :=
  match n with 0 => final | S _ => errorResult i (err i) end.

Let over (n : nat) : Time :=
  match n with 0 => extra | S _ => 0 end.

Lemma invoke_answer : forall n i,
  i + n = k ->
  invoke query params i = mkObs [(lat i, answer n i)] (Completed (lat i + over n)).
Proof.
  intros n i H. destruct n as [|n]; simpl.
  - replace i with k by lia. exact settled.
  - rewrite Nat.add_0_r. apply invoke_fails. apply failed. lia.
Qed.

Lemma expand_chain : forall n i fuel,
  i + n = k -> n + 2 <= fuel ->
  expand fuel project
    (mkObs [(at_ i, answer n i)] (Completed (at_ i + over n))) =
  Some (mkObs
          (flat_map (fun j => [(at_ j, errorResult j (err j));
                               (at_ j, loadingResult loadingState j (err j))])
             (seq i n) ++ [(at_ k, final)])
          (Completed (at_ k + extra))).
Proof.
  induction n as [|n IH]; intros i fuel Hk Hfuel.
  - assert (i = k) by lia. subst i.
    destruct fuel as [|[|fuel]]; try lia.
    rewrite expand_cons, expand_nil. simpl fst; simpl snd. simpl answer.
    unfold project at 2. rewrite stops. simpl.
    unfold merge, seal. simpl. f_equal. unfold prepend. simpl. do 2 f_equal. lia.
  - destruct fuel as [|fuel]; try lia.
    rewrite expand_cons, expand_nil. simpl fst; simpl snd. simpl answer.
    rewrite project_error by lia.
    assert (Hsrc :
      shift (at_ i)
        (startWith (loadingResult loadingState i (err i))
           (switchMap (fun _ => invoke query params (i + 1))
              (timer (retryDelay cfg i)))) =
      mkObs ((at_ i, loadingResult loadingState i (err i))
               :: [(at_ (S i), answer n (S i))])
            (Completed (at_ (S i) + over n))).
    { unfold startWith, switchMap, timer, prepend, shift. simpl.
      replace (i + 1) with (S i) by lia.
      rewrite (@invoke_answer n (S i)) by lia. simpl.
      unfold at_. simpl.
      set (a := arrival lat (retryDelay cfg) i).
      set (d := Z.to_nat (retryDelay cfg i)).
      replace (a + 0) with a by lia.
      replace (a + S (d + lat (S i))) with (a + S d + lat (S i)) by lia.
      replace (a + S (Nat.max d (d + (lat (S i) + over n))))
        with (a + S d + lat (S i) + over n) by lia.
      reflexivity. }
    rewrite Hsrc.
    destruct fuel as [|fuel]; try lia.
    rewrite expand_cons. simpl fst; simpl snd.
    rewrite project_loading.
    assert (Hempty : expand fuel project (shift (at_ i) EMPTY) =
                     Some (mkObs [] (Completed (at_ i + 0)))).
    { destruct fuel; try lia. reflexivity. }
    rewrite Hempty.
    rewrite (IH (S i) (S fuel)) by lia.
    rewrite merge_nil_completed_l.
    unfold prepend. simpl events. simpl ending.
    assert (at_ i <= at_ k) by (apply arrival_le; lia).
    replace (Nat.max (Nat.max (at_ i + 0) (at_ k + extra)) (at_ i + 0))
      with (at_ k + extra) by lia.
    reflexivity.
Qed.

Lemma attempts_chain : forall fuel,
  k + 2 <= fuel ->
  attempts query cfg fuel loadingState params =
  Some (mkObs
          (rawFailures loadingState lat (retryDelay cfg) err k ++ [(at_ k, final)])
          (Completed (at_ k + extra))).
Proof.
  intros fuel Hfuel. unfold attempts.
  rewrite (@invoke_answer k 0) by lia.
  apply (@expand_chain k 0 fuel); lia.
Qed.

(** [debounce]: the raw error is replaced in its own turn. *)
Let duration (result : QueryOutput) : Obs Z :=
  if String.eqb (state result) "error" then timer 0 else EMPTY.

Lemma debounce_flush : forall p due t v rest fin,
  due <= t ->
  debounceFrom duration (Some (p, Fires due)) ((t, v) :: rest) fin =
  prepend (due, p) (debounceFrom duration None ((t, v) :: rest) fin).
Proof.
  intros p due t v rest fin H. simpl.
  apply Nat.leb_le in H. rewrite H. reflexivity.
Qed.

Lemma debounce_final : forall t,
  debounceFrom duration None [(t, final)] (Completed (t + extra)) =
  mkObs [(t, final)] (Completed (t + extra)).
Proof.
  intros t. simpl. unfold duration.
  destruct (String.eqb (state final) "error") eqn:E.
  - rewrite (error_completes eq_refl). simpl.
    replace (Nat.min (t + 1) (t + 0)) with t by lia. reflexivity.
  - simpl. replace (Nat.min (t + 0) (t + extra)) with t by lia. reflexivity.
Qed.

Lemma chain_head : forall n i,
  i + n = k ->
  exists t v rest,
    flat_map (fun j => [(at_ j, errorResult j (err j));
                        (at_ j, loadingResult loadingState j (err j))])
      (seq i n) ++ [(at_ k, final)] = (t, v) :: rest
    /\ at_ i <= t.
Proof.
  intros n i H. destruct n as [|n]; simpl.
  - exists (at_ k), final, []. split; [reflexivity|].
    apply arrival_le. lia.
  - eexists _, _, _. split; [reflexivity|]. lia.
Qed.

Lemma duration_error : forall t n e,
  firstSignal (shift t (duration (errorResult n e))) = Fires (t + 1).
Proof. reflexivity. Qed.

Lemma duration_loading : forall t n e,
  firstSignal (shift t (duration (loadingResult loadingState n e))) = Fires (t + 0).
Proof.
  intros t n e. unfold duration, loadingResult. cbn [state].
  rewrite loading_not_error. reflexivity.
Qed.

Lemma debounce_relabel : forall t n e t' v rest fin,
  t <= t' ->
  debounceFrom duration None
    ((t, errorResult n e) :: (t, loadingResult loadingState n e)
       :: (t', v) :: rest) fin =
  prepend (t, loadingResult loadingState n e)
    (debounceFrom duration None ((t', v) :: rest) fin).
Proof.
  intros t n e t' v rest fin H.
  cbn [debounceFrom]. rewrite duration_error, duration_loading.
  replace (t + 1 <=? t) with false by (symmetry; apply Nat.leb_gt; lia).
  replace (t + 0 <=? t') with true by (symmetry; apply Nat.leb_le; lia).
  rewrite Nat.add_0_r. reflexivity.
Qed.

Lemma debounce_chain : forall n i,
  i + n = k ->
  debounceFrom duration None
    (flat_map (fun j => [(at_ j, errorResult j (err j));
                         (at_ j, loadingResult loadingState j (err j))])
       (seq i n) ++ [(at_ k, final)])
    (Completed (at_ k + extra)) =
  mkObs
    (List.map (fun j => (at_ j, loadingResult loadingState j (err j))) (seq i n)
       ++ [(at_ k, final)])
    (Completed (at_ k + extra)).
Proof.
  induction n as [|n IH]; intros i Hk.
  - simpl. apply debounce_final.
  - specialize (IH (S i) ltac:(lia)).
    destruct (@chain_head n (S i) ltac:(lia)) as (t & v & rest & Hrest & Ht).
    cbn [seq flat_map List.map app]. rewrite Hrest in *.
    assert (at_ (S i) > at_ i) by (apply arrival_lt; lia).
    rewrite debounce_relabel by lia. rewrite IH. reflexivity.
Qed.

Lemma invokeQuery_chain : forall fuel,
  k + 2 <= fuel ->
  invokeQuery query cfg fuel loadingState params =
  Some (mkObs
          (relabelled loadingState lat (retryDelay cfg) err k ++ [(at_ k, final)])
          (Completed (at_ k + extra))).
Proof.
  intros fuel Hfuel. unfold invokeQuery.
  rewrite attempts_chain by assumption. simpl. f_equal.
  unfold debounce. simpl. apply (@debounce_chain k 0). lia.
Qed.

End Chain.

(** ** The two ways a chain of attempts comes to its end *)

Section Settled.

Variable query : QueryFn.
Variable cfg : RequiredQueryConfig.
Variable loadingState : string.
Variable params : JsValue.
Variable k : nat.
Variable lat : nat -> Time.
Variable err : nat -> JsValue.

Hypothesis loading_not_error : String.eqb loadingState "error" = false.
Hypothesis failed : forall i, i < k -> query params i = fails (lat i) (err i).
Hypothesis retried : forall i, i < k -> retryCondition cfg i (err i) = true.

Lemma stops_on_success : forall n d,
  retryOrStop query cfg loadingState params (successResult n d) = EMPTY.
Proof. reflexivity. Qed.

Lemma stops_on_refusal : forall n e,
  retryCondition cfg n e = false ->
  retryOrStop query cfg loadingState params (errorResult n e) = EMPTY.
Proof.
  intros n e H. unfold retryOrStop, retriesOf, errorOf, errorResult.
  cbn [state retries error]. rewrite H, andb_false_r. reflexivity.
Qed.

Lemma attempts_success : forall d extra fuel,
  query params k = succeeds (lat k) d (lat k + extra) ->
  k + 2 <= fuel ->
  attempts query cfg fuel loadingState params =
  Some (mkObs
          (rawFailures loadingState lat (retryDelay cfg) err k
             ++ [(arrival lat (retryDelay cfg) k, successResult k d)])
          (Completed (arrival lat (retryDelay cfg) k + extra))).
Proof.
  intros d extra fuel Hk Hfuel.
  apply attempts_chain; auto using invoke_succeeds, stops_on_success.
  discriminate.
Qed.

Lemma invokeQuery_success : forall d extra fuel,
  query params k = succeeds (lat k) d (lat k + extra) ->
  k + 2 <= fuel ->
  invokeQuery query cfg fuel loadingState params =
  Some (mkObs
          (relabelled loadingState lat (retryDelay cfg) err k
             ++ [(arrival lat (retryDelay cfg) k, successResult k d)])
          (Completed (arrival lat (retryDelay cfg) k + extra))).
Proof.
  intros d extra fuel Hk Hfuel.
  apply invokeQuery_chain; auto using invoke_succeeds, stops_on_success.
  discriminate.
Qed.

Lemma attempts_failure : forall fuel,
  query params k = fails (lat k) (err k) ->
  retryCondition cfg k (err k) = false ->
  k + 2 <= fuel ->
  attempts query cfg fuel loadingState params =
  Some (mkObs
          (rawFailures loadingState lat (retryDelay cfg) err k
             ++ [(arrival lat (retryDelay cfg) k, errorResult k (err k))])
          (Completed (arrival lat (retryDelay cfg) k))).
Proof.
  intros fuel Hk Hstop Hfuel.
  rewrite <- (Nat.add_0_r (arrival lat (retryDelay cfg) k)) at 2.
  apply attempts_chain; auto using stops_on_refusal.
  rewrite Nat.add_0_r. apply invoke_fails. exact Hk.
Qed.

Lemma invokeQuery_failure : forall fuel,
  query params k = fails (lat k) (err k) ->
  retryCondition cfg k (err k) = false ->
  k + 2 <= fuel ->
  invokeQuery query cfg fuel loadingState params =
  Some (mkObs
          (relabelled loadingState lat (retryDelay cfg) err k
             ++ [(arrival lat (retryDelay cfg) k, errorResult k (err k))])
          (Completed (arrival lat (retryDelay cfg) k))).
Proof.
  intros fuel Hk Hstop Hfuel.
  rewrite <- (Nat.add_0_r (arrival lat (retryDelay cfg) k)) at 2.
  apply invokeQuery_chain; auto using stops_on_refusal.
  rewrite Nat.add_0_r. apply invoke_fails. exact Hk.
Qed.

End Settled.

(** The retry condition of a numeric [retries]. *)
Lemma retryCondition_number : forall cfg r n e,
  Config.retries cfg = Value (RetriesNumber r) ->
  retryCondition cfg n e = (Z.of_nat n <? r)%Z.
Proof.
  intros cfg r n e H. unfold retryCondition, createRetryCondition.
  rewrite H. unfold orZero. destruct (r =? 0)%Z eqn:E; [|reflexivity].
  apply Z.eqb_eq in E. subst r. reflexivity.
Qed.

(* ================================================================== *)
(** * The retrying invoker *)
(* ================================================================== *)

Lemma settles_cases : forall query cfg loadingState params k lat err final extra,
  String.eqb loadingState "error" = false ->
  (forall i, i < k -> query params i = fails (lat i) (err i)) ->
  (forall i, i < k -> retryCondition cfg i (err i) = true) ->
  settles query cfg params lat err k final extra ->
  forall fuel, k + 2 <= fuel ->
  attempts query cfg fuel loadingState params =
    Some (mkObs (rawFailures loadingState lat (retryDelay cfg) err k
                   ++ [(arrival lat (retryDelay cfg) k, final)])
                (Completed (arrival lat (retryDelay cfg) k + extra)))
  /\ invokeQuery query cfg fuel loadingState params =
    Some (mkObs (relabelled loadingState lat (retryDelay cfg) err k
                   ++ [(arrival lat (retryDelay cfg) k, final)])
                (Completed (arrival lat (retryDelay cfg) k + extra))).
Proof.
  intros query cfg loadingState params k lat err final extra Hl Hf Hr Hs fuel Hfuel.
  destruct Hs as [(d & Hk & ->) | (Hk & Hstop & -> & ->)].
  - split.
    + apply attempts_success; assumption.
    + apply invokeQuery_success; assumption.
  - rewrite Nat.add_0_r. split.
    + apply attempts_failure; assumption.
    + apply invokeQuery_failure; assumption.
Qed.

Lemma Sorted_map_seq : forall (R : nat -> nat -> Prop) (g : nat -> nat),
  (forall i, R (g i) (g (S i))) ->
  forall n s, Sorted.Sorted R (List.map g (seq s n)).
Proof.
  intros R g Hg. induction n as [|n IH]; intros s; simpl.
  - constructor.
  - constructor; [apply IH|].
    destruct n; simpl; constructor. apply Hg.
Qed.

Lemma relabelled_retries : forall loadingState lat delay err k t final,
  retriesOf final = k ->
  List.map (fun ev => retriesOf (snd ev))
    (relabelled loadingState lat delay err k ++ [(t, final)]) =
  List.map (fun i => i) (seq 0 (S k)).
Proof.
  intros loadingState lat delay err k t final H.
  rewrite seq_S, !List.map_app. unfold relabelled. rewrite List.map_map.
  simpl. rewrite H. reflexivity.
Qed.

Lemma relabelled_turns : forall loadingState lat delay err k final,
  List.map fst
    (relabelled loadingState lat delay err k ++ [(arrival lat delay k, final)]) =
  List.map (arrival lat delay) (seq 0 (S k)).
Proof.
  intros loadingState lat delay err k final.
  rewrite seq_S, !List.map_app. unfold relabelled. rewrite List.map_map.
  reflexivity.
Qed.

Lemma retriesOf_success : forall n d, retriesOf (successResult n d) = n.
Proof. intros [|n] d; reflexivity. Qed.

(** Why the loading state must not be ['error']: the relabelled failure
    would then be retried in the turn it is emitted in, and again, without
    end. *)
Lemma expand_error_state_loops : forall query cfg params e fuel t r rest fin,
  retryCondition cfg 0 e = true ->
  state r = "error" -> retries r = Some 0 -> error r = Some e ->
  expand fuel (retryOrStop query cfg "error" params)
    (mkObs ((t, r) :: rest) fin) = None.
Proof.
  intros query cfg params e fuel. induction fuel as [|fuel IH];
    intros t r rest fin Hretry Hs Hn He; [reflexivity|].
  rewrite expand_cons. cbn [fst snd].
  unfold retryOrStop at 2, retriesOf, errorOf.
  rewrite Hs, Hn, He, Hretry. cbn [String.eqb Ascii.eqb Bool.eqb andb].
  unfold startWith, prepend, shift. cbn [events ending List.map fst snd].
  rewrite IH by (assumption || reflexivity). reflexivity.
Qed.

Lemma invokeQuery_error_state_loops : forall query cfg params l e fuel,
  query params 0 = fails l e ->
  retryCondition cfg 0 e = true ->
  invokeQuery query cfg fuel "error" params = None.
Proof.
  intros query cfg params l e fuel Hq Hretry. unfold invokeQuery, attempts.
  rewrite (invoke_fails _ _ _ Hq).
  rewrite (@expand_error_state_loops query cfg params e fuel l
             (errorResult 0 e) [] (Completed l) Hretry eq_refl eq_refl eq_refl).
  reflexivity.
Qed.

(** C1.  With a numeric [retries = r], the chain of attempts terminates
    with [{state: 'success', data, retries: k}] ([retries] left out when
    [k = 0]) when the fetch first succeeds on attempt [k <= r]; under any
    configuration it terminates with [{state: 'error', error, retries: k}],
    carrying the last failure, when attempt [k] fails and the retry
    condition refuses; the retry condition is [n < r] for a number and the
    user's predicate for a function.  The loading state handed to the
    invoker is any but ['error']. *)
Theorem invokeQuery_terminates :
  forall (query : QueryFn) (cfg : RequiredQueryConfig) (loadingState : string)
         (params : JsValue) (k : nat) (lat : nat -> Time) (err : nat -> JsValue),
    String.eqb loadingState "error" = false ->
    (forall i, i < k -> query params i = fails (lat i) (err i)) ->
    (forall r d extra fuel,
        Config.retries cfg = Value (RetriesNumber r) ->
        (Z.of_nat k <= r)%Z ->
        query params k = succeeds (lat k) d (lat k + extra) ->
        k + 2 <= fuel ->
        terminatesWith (invokeQuery query cfg fuel loadingState params)
          {| state := "success"; data := Some d; error := None;
             retries := if k =? 0 then None else Some k |})
    /\ (forall fuel,
        (forall i, i < k -> retryCondition cfg i (err i) = true) ->
        query params k = fails (lat k) (err k) ->
        retryCondition cfg k (err k) = false ->
        k + 2 <= fuel ->
        terminatesWith (invokeQuery query cfg fuel loadingState params)
          {| state := "error"; data := None; error := Some (err k);
             retries := Some k |})
    /\ (forall r n e,
        Config.retries cfg = Value (RetriesNumber r) ->
        retryCondition cfg n e = (Z.of_nat n <? r)%Z)
    /\ (forall retry,
        Config.retries cfg = Value (RetriesFunction retry) ->
        retryCondition cfg = retry).
Proof.
  intros query cfg loadingState params k lat err Hload Hfail.
  split; [|split; [|split]].
  - intros r d extra fuel Hr Hk Hok Hfuel.
    exists (relabelled loadingState lat (retryDelay cfg) err k),
           (arrival lat (retryDelay cfg) k),
           (arrival lat (retryDelay cfg) k + extra).
    replace (if k =? 0 then None else Some k)
      with (match k with 0 => None | S _ => Some k end) by (destruct k; reflexivity).
    apply invokeQuery_success; try assumption.
    intros i Hi. rewrite (retryCondition_number cfg i (err i) Hr).
    apply Z.ltb_lt. lia.
  - intros fuel Hretry Hk Hstop Hfuel.
    exists (relabelled loadingState lat (retryDelay cfg) err k),
           (arrival lat (retryDelay cfg) k),
           (arrival lat (retryDelay cfg) k).
    apply invokeQuery_failure; assumption.
  - intros r n e Hr. apply retryCondition_number. exact Hr.
  - intros retry Hr. unfold retryCondition, createRetryCondition.
    rewrite Hr. reflexivity.
Qed.

(** The retry example of the specification: [retries = 2],
    [retryDelay = () => 0], failures on attempts 0 and 1, success on
    attempt 2: the final result is a success with [retries = 2]. *)
Lemma invokeQuery_terminates_example :
  terminatesWith (invokeQuery flakyFetch twoRetries 4 "loading" JNull)
    {| state := "success"; data := Some (JNum 42); error := None;
       retries := Some 2 |}.
Proof.
  refine (proj1 (@invokeQuery_terminates flakyFetch twoRetries "loading" JNull 2
                   (fun _ => 0)
                   (fun i => match i with 0 => JStr "first" | _ => JStr "second" end)
                   eq_refl _)
            2%Z (JNum 42) 0 4 eq_refl _ eq_refl _).
  - intros [|[|i]] H; [reflexivity | reflexivity | lia].
  - lia.
  - lia.
Defined.

(** C6.  Along the results that one chain of attempts emits, [retries]
    (0 when absent) never decreases from one emission to the next. *)
Theorem retries_never_decrease :
  forall (query : QueryFn) (cfg : RequiredQueryConfig) (loadingState : string)
         (params : JsValue) (k : nat) (lat : nat -> Time) (err : nat -> JsValue)
         (final : QueryOutput) (extra : Time) (fuel : nat),
    String.eqb loadingState "error" = false ->
    (forall i, i < k -> query params i = fails (lat i) (err i)) ->
    (forall i, i < k -> retryCondition cfg i (err i) = true) ->
    settles query cfg params lat err k final extra ->
    k + 2 <= fuel ->
    exists obs,
      invokeQuery query cfg fuel loadingState params = Some obs
      /\ Sorted.Sorted le (List.map (fun ev => retriesOf (snd ev)) (events obs)).
Proof.
  intros query cfg loadingState params k lat err final extra fuel Hl Hf Hr Hs Hfuel.
  destruct (@settles_cases query cfg loadingState params k lat err final extra Hl Hf Hr Hs fuel Hfuel) as [_ Hrun].
  eexists. split; [exact Hrun|]. cbn [events].
  rewrite relabelled_retries.
  - apply Sorted_map_seq. intros i. lia.
  - destruct Hs as [(d & _ & ->) | (_ & _ & -> & _)].
    + apply retriesOf_success.
    + reflexivity.
Qed.

Lemma retries_never_decrease_example :
  exists obs,
    invokeQuery flakyFetch twoRetries 4 "loading" JNull = Some obs
    /\ Sorted.Sorted le (List.map (fun ev => retriesOf (snd ev)) (events obs)).
Proof.
  refine (@retries_never_decrease flakyFetch twoRetries "loading" JNull 2
            (fun _ => 0)
            (fun i => match i with 0 => JStr "first" | _ => JStr "second" end)
            (successResult 2 (JNum 42)) 0 4 eq_refl _ _ _ _).
  - intros [|[|i]] H; [reflexivity | reflexivity | lia].
  - intros [|[|i]] H; [reflexivity | reflexivity | lia].
  - left. exists (JNum 42). split; reflexivity.
  - lia.
Defined.

(** C4.  While attempts fail and are retried, what leaves [expand] is each
    raw error with its relabelling behind it in the same turn; what the
    subscriber gets after [debounce] is the relabelling alone: one emission
    per turn, in the loading state and never in state ['error'], with the
    error and the attempt number of the failure. *)
Theorem retry_relabels_errors :
  forall (query : QueryFn) (cfg : RequiredQueryConfig) (loadingState : string)
         (params : JsValue) (k : nat) (lat : nat -> Time) (err : nat -> JsValue)
         (final : QueryOutput) (extra : Time) (fuel : nat),
    String.eqb loadingState "error" = false ->
    (forall i, i < k -> query params i = fails (lat i) (err i)) ->
    (forall i, i < k -> retryCondition cfg i (err i) = true) ->
    settles query cfg params lat err k final extra ->
    k + 2 <= fuel ->
    let turn := arrival lat (retryDelay cfg) in
    let ends := Completed (turn k + extra) in
    let emitted :=
      List.map (fun i => (turn i, loadingResult loadingState i (err i)))
        (seq 0 k) ++ [(turn k, final)] in
    attempts query cfg fuel loadingState params =
      Some (mkObs
              (flat_map (fun i => [(turn i, errorResult i (err i));
                                   (turn i, loadingResult loadingState i (err i))])
                 (seq 0 k) ++ [(turn k, final)]) ends)
    /\ invokeQuery query cfg fuel loadingState params = Some (mkObs emitted ends)
    /\ (forall i, state (loadingResult loadingState i (err i)) <> "error")
    /\ Sorted.Sorted lt (List.map fst emitted).
Proof.
  intros query cfg loadingState params k lat err final extra fuel Hl Hf Hr Hs Hfuel.
  destruct (@settles_cases query cfg loadingState params k lat err final extra Hl Hf Hr Hs fuel Hfuel) as [Hraw Hrun].
  cbv zeta. split; [exact Hraw|]. split; [exact Hrun|]. split.
  - intros i H. simpl in H. rewrite H in Hl. discriminate.
  - fold (relabelled loadingState lat (retryDelay cfg) err k).
    rewrite relabelled_turns.
    apply Sorted_map_seq. intros i. simpl. lia.
Qed.

(** The retry example again: the subscriber sees two relabelled failures
    and the success, one per turn. *)
Lemma retry_relabels_errors_example :
  invokeQuery flakyFetch twoRetries 4 "loading" JNull =
  Some (mkObs [(0, loadingResult "loading" 0 (JStr "first"));
               (1, loadingResult "loading" 1 (JStr "second"));
               (2, successResult 2 (JNum 42))]
              (Completed 2)).
Proof.
  refine (proj1 (proj2
            (@retry_relabels_errors flakyFetch twoRetries "loading" JNull 2
               (fun _ => 0)
               (fun i => match i with 0 => JStr "first" | _ => JStr "second" end)
               (successResult 2 (JNum 42)) 0 4 eq_refl _ _ _ _))).
  - intros [|[|i]] H; [reflexivity | reflexivity | lia].
  - intros [|[|i]] H; [reflexivity | reflexivity | lia].
  - left. exists (JNum 42). split; reflexivity.
  - lia.
Defined.

(* ================================================================== *)
(** * Failures are data *)
(* ================================================================== *)

Lemma ending_seal : forall A (o : Obs A), ending (seal o) = ending o.
Proof. intros A o. unfold seal. destruct (ending o) eqn:E; simpl; auto. Qed.

Lemma noError_mergeEnd : forall a b,
  noError a -> noError b -> noError (mergeEnd a b).
Proof. intros [| |] [| |]; simpl; tauto. Qed.

Lemma noError_shiftEnd : forall d e, noError e -> noError (shiftEnd d e).
Proof. intros d [| |]; simpl; tauto. Qed.













(* ================================================================== *)
(** * The configuration *)
(* ================================================================== *)

Lemma config_merges_over_defaults_aux : forall (inputs : Inputs),
  Config.retries (queryConfig (parseInput inputs)) =
    supplied (@Config.retries option) (inputConfigOf inputs)
      (Value (RetriesNumber 3))
  /\ True.
Proof.
  intros [query [c|] | param query [c|]]; unfold supplied; simpl; split;
    reflexivity || exact I.
Qed.

(** C7.  The configuration that [query] resolves is, property by property,
    the caller's value where the caller's configuration has the property
    and otherwise the default: [retries = 3],
    [retryDelay = n => (n + 1) * 1000], [refetchOnWindowFocus = false],
    [refetchInterval] undefined, [staleTime = 0], [cacheTime = 300000]. *)
Theorem config_merges_over_defaults :
  forall (inputs : Inputs),
    let given := inputConfigOf inputs in
    let resolved := queryConfig (parseInput inputs) in
    Config.retries resolved =
      supplied (@Config.retries option) given (Value (RetriesNumber 3))
    /\ Config.retryDelay resolved =
      supplied (@Config.retryDelay option) given
        (Value (DelayFunction (fun n => ((Z.of_nat n + 1) * 1000)%Z)))
    /\ Config.refetchOnWindowFocus resolved =
      supplied (@Config.refetchOnWindowFocus option) given (Value false)
    /\ Config.refetchInterval resolved =
      supplied (@Config.refetchInterval option) given Undefined
    /\ Config.staleTime resolved =
      supplied (@Config.staleTime option) given (Value 0%Z)
    /\ Config.cacheTime resolved =
      supplied (@Config.cacheTime option) given (Value 300000%Z).
Proof.
  intros [query [c|] | param query [c|]]; cbv zeta; unfold supplied; simpl;
    repeat split; reflexivity.
Qed.

Lemma retryCondition_undefined : forall cfg n e,
  Config.retries cfg = Undefined -> retryCondition cfg n e = false.
Proof.
  intros cfg n e H. unfold retryCondition, createRetryCondition.
  rewrite H. reflexivity.
Qed.

Lemma single_attempt : forall query cfg loadingState params l e fuel,
  query params 0 = fails l e ->
  retryCondition cfg 0 e = false ->
  2 <= fuel ->
  attempts query cfg fuel loadingState params =
    Some (mkObs [(l, errorResult 0 e)] (Completed l))
  /\ invokeQuery query cfg fuel loadingState params =
    Some (mkObs [(l, errorResult 0 e)] (Completed l)).
Proof.
  intros query cfg loadingState params l e fuel Hq Hstop Hfuel.
  assert (Hraw : attempts query cfg fuel loadingState params =
                 Some (mkObs [(l, errorResult 0 e)] (Completed l))).
  { unfold attempts. rewrite (invoke_fails _ _ _ Hq).
    destruct fuel as [|[|fuel]]; try lia.
    rewrite expand_cons, expand_nil. cbn [fst snd].
    rewrite (stops_on_refusal query cfg loadingState params _ _ Hstop).
    simpl. unfold merge, seal, prepend. simpl.
    rewrite Nat.add_0_r, Nat.max_id. reflexivity. }
  split; [exact Hraw|].
  unfold invokeQuery. rewrite Hraw. simpl. unfold debounce. simpl.
  replace (Nat.min (l + 1) l) with l by lia. reflexivity.
Qed.

(** C10.  A configuration whose [retries] is explicitly [undefined]
    overrides the default with [undefined]: the retry condition is
    constantly false, and a failing fetch is attempted once, its failure
    being the only result; with no [retries] property the default 3 stays
    and the condition is [n < 3]. *)
Theorem undefined_retries_disable_retry :
  forall (inputs : Inputs) (input : QueryConfig),
    inputConfigOf inputs = Some input ->
    Config.retries input = Some Undefined ->
    let cfg := queryConfig (parseInput inputs) in
    Config.retries cfg = Undefined
    /\ (forall n e, retryCondition cfg n e = false)
    /\ (forall query loadingState params l e fuel,
        query params 0 = fails l e ->
        2 <= fuel ->
        attempts query cfg fuel loadingState params =
          Some (mkObs [(l, errorResult 0 e)] (Completed l))
        /\ invokeQuery query cfg fuel loadingState params =
          Some (mkObs [(l, errorResult 0 e)] (Completed l)))
    /\ (forall inputs' n e,
        supplied (@Config.retries option) (inputConfigOf inputs')
          (Value (RetriesNumber 3)) = Value (RetriesNumber 3) ->
        retryCondition (queryConfig (parseInput inputs')) n e = (n <? 3)).
Proof.
  intros inputs input Hin Hr cfg.
  assert (Hcfg : Config.retries cfg = Undefined).
  { destruct (config_merges_over_defaults_aux inputs) as [H _].
    unfold cfg. rewrite H, Hin. unfold supplied. rewrite Hr. reflexivity. }
  split; [exact Hcfg|]. split; [|split].
  - intros n e. apply retryCondition_undefined. exact Hcfg.
  - intros query loadingState params l e fuel Hq Hfuel.
    apply single_attempt; auto using retryCondition_undefined.
  - intros inputs' n e H.
    destruct (config_merges_over_defaults_aux inputs') as [H' _].
    rewrite (@retryCondition_number _ 3%Z n e) by (rewrite H'; exact H).
    destruct (Nat.ltb_spec n 3); [apply Z.ltb_lt | apply Z.ltb_ge]; lia.
Qed.

Lemma undefined_retries_example :
  let cfg := queryConfig (parseInput (WithoutParam alwaysFails (Some retriesUndefined))) in
  Config.retries cfg = Undefined
  /\ (forall n e, retryCondition cfg n e = false)
  /\ (forall query loadingState params l e fuel,
      query params 0 = fails l e ->
      2 <= fuel ->
      attempts query cfg fuel loadingState params =
        Some (mkObs [(l, errorResult 0 e)] (Completed l))
      /\ invokeQuery query cfg fuel loadingState params =
        Some (mkObs [(l, errorResult 0 e)] (Completed l)))
  /\ (forall inputs' n e,
      supplied (@Config.retries option) (inputConfigOf inputs')
        (Value (RetriesNumber 3)) = Value (RetriesNumber 3) ->
      retryCondition (queryConfig (parseInput inputs')) n e = (n <? 3)).
Proof.
  exact (@undefined_retries_disable_retry
           (WithoutParam alwaysFails (Some retriesUndefined)) retriesUndefined
           eq_refl eq_refl).
Defined.

(* ================================================================== *)
(** * Cache keys and the parameter trigger *)
(* ================================================================== *)

Lemma orderedEqual_eq : forall a b, orderedEqual a b = true -> a = b.
Proof.
  induction a as [| | x | x | x | xs IHxs | ps IHps] using JsValue_nested_ind;
    intros b E; destruct b as [| | y | y | y | ys | qs]; simpl in E;
    try discriminate; try reflexivity.
  - apply Bool.eqb_prop in E. congruence.
  - apply Z.eqb_eq in E. congruence.
  - apply String.eqb_eq in E. congruence.
  - f_equal. revert ys E.
    induction IHxs as [|x xs Hx _ IH]; intros [|y ys] E; try discriminate.
    + reflexivity.
    + apply andb_true_iff in E as [E1 E2].
      f_equal; [apply Hx; exact E1 | apply IH; exact E2].
  - f_equal. revert qs E.
    induction IHps as [|[k x] ps Hx _ IH]; intros [|[k' y] qs] E; try discriminate.
    + reflexivity.
    + simpl in E. apply andb_true_iff in E as [E1 E2].
      apply andb_true_iff in E1 as [E1 E3].
      apply String.eqb_eq in E1. subst k'.
      f_equal; [f_equal; apply Hx; exact E3 | apply IH; exact E2].
Qed.

Lemma stringify_undefined : forall v, stringify v = None -> v = JUndefined.
Proof. intros [] H; simpl in H; try discriminate. reflexivity. Qed.

Lemma append_assoc : forall a b c : string, (a +++ b) +++ c = a +++ (b +++ c).
Proof.
  induction a as [|x a IH]; intros b c; simpl; [reflexivity|].
  rewrite IH. reflexivity.
Qed.

Lemma append_cancel_l : forall a b c : string, a +++ b = a +++ c -> b = c.
Proof.
  induction a as [|x a IH]; intros b c H; simpl in H; [exact H|].
  injection H as H. exact (IH _ _ H).
Qed.

Lemma cacheKey_stringified : forall key params,
  stringified params = true ->
  queryKeyAndParamsToCacheKey key params =
    key +++ "-" +++ textOf (stringify params)
  /\ exists text, stringify params = Some text.
Proof.
  intros key params H.
  destruct params; try discriminate H; split; try reflexivity;
    eexists; reflexivity.
Qed.

(** C5 (as amended).  The cache key is the bare key for [undefined] and
    [null] params; otherwise it is the key, a dash, and the params: a
    string as it is, a number (a safe integer) in its decimal digits, any
    other value as its JSON text.  Params that are structurally equal with
    the keys of their objects in the same order get the same cache key;
    and two params that are booleans, arrays or objects get the same cache
    key exactly when their JSON texts are the same. *)
Theorem cacheKey_of_params :
  forall (key : string) (params : JsValue),
    match params with
    | JUndefined | JNull => queryKeyAndParamsToCacheKey key params = key
    | JStr s => queryKeyAndParamsToCacheKey key params = key +++ "-" +++ s
    | JNum n =>
        safeInteger n ->
        queryKeyAndParamsToCacheKey key params = key +++ "-" +++ numberToString n
    | JBool b =>
        queryKeyAndParamsToCacheKey key params =
          key +++ "-" +++ (if b then "true" else "false")
    | _ =>
        exists text, stringify params = Some text
          /\ queryKeyAndParamsToCacheKey key params = key +++ "-" +++ text
    end
    /\ (forall params',
         orderedEqual params params' = true ->
         queryKeyAndParamsToCacheKey key params =
         queryKeyAndParamsToCacheKey key params')
    /\ (forall params',
         stringified params = true ->
         stringified params' = true ->
         (queryKeyAndParamsToCacheKey key params =
          queryKeyAndParamsToCacheKey key params'
          <-> stringify params = stringify params')).
Proof.
  intros key params. split; [|split].
  - destruct params; try reflexivity; try (intros _; reflexivity);
      eexists; split; reflexivity.
  - intros params' H. apply orderedEqual_eq in H. subst. reflexivity.
  - intros params' Hp Hq.
    destruct (cacheKey_stringified key params Hp) as [-> [text ->]].
    destruct (cacheKey_stringified key params' Hq) as [-> [text' ->]].
    cbn [textOf]. split.
    + intros H. apply append_cancel_l in H.
      apply (append_cancel_l "-") in H. congruence.
    + intros H. injection H as ->. reflexivity.
Qed.

(** C5 as stated fails: [{a: 1, b: 2}] and [{b: 2, a: 1}] are structurally
    equal and get different cache keys. *)
Lemma cacheKey_key_order :
  deepEqual ab ba = true
  /\ queryKeyAndParamsToCacheKey "k" ab <> queryKeyAndParamsToCacheKey "k" ba.
Proof. split; [reflexivity | discriminate]. Qed.

Lemma paramsTrigger_changes : forall cfg key inv previous evs,
  flat_map
    (fun ev =>
       List.map (fun y => (fst ev, y))
         ((if negb (isUndefined (fst (snd ev)))
           then [unsubscribeFrom cfg key inv (fst (snd ev))] else [])
          ++ [subscribeTo cfg key inv (snd (snd ev))]))
    (pairsFrom previous
       (distinctFrom (fun a b => sameText (stringify a) (stringify b))
          previous evs)) =
  paramChanges cfg key inv previous evs.
Proof.
  intros cfg key inv previous evs. revert previous.
  induction evs as [|[t v] rest IH]; intros previous; simpl; [reflexivity|].
  destruct (sameText (stringify previous) (stringify v)).
  - apply IH.
  - simpl. rewrite IH. destruct (isUndefined previous); reflexivity.
Qed.

Lemma paramsTrigger_events : forall cfg queryParam key inv,
  events (paramsTrigger cfg queryParam key inv) =
  paramChanges cfg key inv JUndefined (events queryParam).
Proof.
  intros cfg queryParam key inv.
  unfold paramsTrigger, concatMap, pairwise, distinctUntilChanged, startWith, prepend.
  cbn [events]. apply paramsTrigger_changes.
Qed.

Lemma sameText_refl : forall t, sameText t t = true.
Proof. intros [s|]; simpl; [apply String.eqb_refl | reflexivity]. Qed.

(** C2 (as amended).  The parameter trigger compares the JSON text of each
    value with that of the last value it let through, at first the injected
    [undefined]: a value with the same text emits nothing, and so does a
    value structurally equal to the last one with its keys in the same
    order; any other emits one subscribe event for its cache key, right
    after one unsubscribe event for the previous cache key unless the
    previous value is [undefined].  From [{a: 1}] to an equal [{a: 1}]
    nothing is emitted; on to [{a: 2}], one unsubscribe and then one
    subscribe. *)
Theorem paramsTrigger_emits_changes :
  forall (cfg : RequiredQueryConfig) (key : string) (inv : QueryInvoker),
    (forall queryParam,
        events (paramsTrigger cfg queryParam key inv) =
          paramChanges cfg key inv JUndefined (events queryParam)
        /\ ending (paramsTrigger cfg queryParam key inv) = ending queryParam)
    /\ (forall previous t params rest,
        orderedEqual previous params = true ->
        paramChanges cfg key inv previous ((t, params) :: rest) =
        paramChanges cfg key inv previous rest)
    /\ (forall t0 t1 t2 fin,
        events (paramsTrigger cfg
                  (mkObs [(t0, a_is_1); (t1, a_is_1); (t2, a_is_2)] fin) key inv) =
        [(t0, subscribeTo cfg key inv a_is_1);
         (t2, unsubscribeFrom cfg key inv a_is_1);
         (t2, subscribeTo cfg key inv a_is_2)]).
Proof.
  intros cfg key inv. split; [|split].
  - intros queryParam. split; [apply paramsTrigger_events | reflexivity].
  - intros previous t params rest H. apply orderedEqual_eq in H. subst params.
    simpl. rewrite sameText_refl. reflexivity.
  - intros t0 t1 t2 fin. rewrite paramsTrigger_events. reflexivity.
Qed.

(** C2 as stated fails in four ways: structurally equal values whose keys
    come in another order emit a pair; a change that the JSON text does not
    show ([[undefined]] to [[null]]) emits nothing; a change away from
    [undefined] emits no unsubscribe event; a first value [undefined]
    emits nothing at all. *)
Lemma paramsTrigger_not_structural :
  let run := fun evs =>
    summary (events (paramsTrigger DEFAULT_QUERY_CONFIG (mkObs evs Never)
                       "k" noInvoker)) in
  (deepEqual ab ba = true
   /\ run [(0, ab); (1, ba)] =
      [(0, QuerySubscribe, queryKeyAndParamsToCacheKey "k" ab);
       (1, QueryUnsubscribe, queryKeyAndParamsToCacheKey "k" ab);
       (1, QuerySubscribe, queryKeyAndParamsToCacheKey "k" ba)])
  /\ (deepEqual (JArr [JUndefined]) (JArr [JNull]) = false
      /\ run [(0, JArr [JUndefined]); (1, JArr [JNull])] =
         [(0, QuerySubscribe, "k-[null]")])
  /\ run [(0, JNum 1); (1, JUndefined); (2, JNum 2)] =
     [(0, QuerySubscribe, "k-1"); (1, QueryUnsubscribe, "k-1");
      (1, QuerySubscribe, "k"); (2, QuerySubscribe, "k-2")]
  /\ run [(0, JUndefined)] = [].
Proof. cbv zeta. repeat split; reflexivity. Qed.

(* ================================================================== *)
(** * The stream that [query] returns *)
(* ================================================================== *)

Lemma paramChanges_undefined : forall cfg key inv evs,
  Forall (fun ev => snd ev = JUndefined) evs ->
  paramChanges cfg key inv JUndefined evs = [].
Proof.
  intros cfg key inv evs H. induction H as [|[t v] rest Hv _ IH]; [reflexivity|].
  simpl in Hv. subst v. simpl. exact IH.
Qed.

Lemma withLatestFrom_silent : forall A B (other : Obs B) (o : Obs A),
  events other = [] -> events (withLatestFrom other o) = [].
Proof.
  intros A B other o H. unfold withLatestFrom. rewrite H.
  assert (E : flat_map
                (fun ev : Time * A =>
                   match latestAt (fst ev) (@nil (Time * B)) with
                   | Some b => [(fst ev, (snd ev, b))]
                   | None => []
                   end) (events o) = []).
  { induction (events o) as [|ev rest IH]; [reflexivity|]. simpl. exact IH. }
  rewrite E. unfold seal. simpl.
  destruct (match ending other with
            | Errored te e => mergeEnd (ending o) (Errored te e)
            | _ => ending o
            end); reflexivity.
Qed.

Lemma results_silent : forall key inputs cache,
  events (params' key inputs) = [] ->
  events (results key inputs cache) = [].
Proof.
  intros key inputs cache H.
  unfold results, share, finalize, distinctUntilChanged, map, filter.
  cbn [events].
  set (w := events (withLatestFrom _ _)).
  assert (E : w = []) by (apply withLatestFrom_silent; exact H).
  rewrite E. reflexivity.
Qed.

(** C9 (as amended).  If the parameter stream delivers nothing but
    [undefined], as the static parameter of [query(key, undefined, fetchFn)]
    does, the parameter trigger emits no event at all, and the stream that
    [query] returns never emits a result, whatever the cache holds. *)
Theorem undefined_params_never_subscribe :
  forall (key : string) (inputs : Inputs) (cache : Obs Cache),
    Forall (fun ev => snd ev = JUndefined) (events (theQueryParam inputs)) ->
    events (params' key inputs) = []
    /\ events (results key inputs cache) = []
    /\ (forall detach, events (listened key inputs cache detach) = []).
Proof.
  intros key inputs cache H.
  assert (Hp : events (params' key inputs) = []).
  { unfold params'. rewrite paramsTrigger_events.
    apply paramChanges_undefined. exact H. }
  split; [exact Hp|]. split.
  - apply results_silent. exact Hp.
  - intros detach. unfold listened, unsubscribedAt. cbn [events].
    rewrite (results_silent key inputs cache Hp). reflexivity.
Qed.

(** The call [query("k", undefined, fetchFn)], with a cache that holds a
    result under the key ["k"]. *)
Lemma undefined_params_example :
  let inputs := WithParam (StaticParam JUndefined) alwaysFails None in
  let cache := mkObs [(5, cacheWith "k" (mkRef 1 (successResult 0 (JNum 7))))] Never in
  events (params' "k" inputs) = []
  /\ events (results "k" inputs cache) = []
  /\ (forall detach, events (listened "k" inputs cache detach) = []).
Proof.
  refine (@undefined_params_never_subscribe "k"
            (WithParam (StaticParam JUndefined) alwaysFails None) _ _).
  repeat constructor.
Defined.

(** C9 as stated fails: a parameter stream whose first value is
    [undefined] and whose second is [1] does emit a subscribe event, for
    the second value, and the returned stream then emits the cached
    result. *)
Lemma undefined_first_then_subscribes :
  let inputs := WithParam (ObservableParam undefinedThenOne) alwaysFails None in
  let r := mkRef 1 (successResult 0 (JNum 7)) in
  summary (events (params' "k" inputs)) = [(3, QuerySubscribe, "k-1")]
  /\ events (results "k" inputs (mkObs [(5, cacheWith "k-1" r)] Never)) =
     [(5, Some r)].
Proof. cbv zeta. split; reflexivity. Qed.

Lemma take_one_events : forall A (o : Obs A),
  events (take 1 o) = firstn 1 (events o).
Proof.
  intros A o. unfold take. destruct (events o) as [|ev rest] eqn:E; simpl.
  - exact E.
  - reflexivity.
Qed.

Lemma filter_after_before : forall A (detach : Time) (evs : list (Time * A)),
  List.filter (fun ev => detach <=? fst ev)
    (List.filter (fun ev => fst ev <? detach) evs) = [].
Proof.
  intros A detach evs. induction evs as [|ev rest IH]; [reflexivity|].
  simpl. destruct (fst ev <? detach) eqn:E; [|exact IH].
  simpl. apply Nat.ltb_lt in E.
  replace (detach <=? fst ev) with false by (symmetry; apply Nat.leb_gt; lia).
  exact IH.
Qed.

Lemma static_param_subscribes : forall cfg key inv param,
  param <> JUndefined ->
  events (paramsTrigger cfg (of_ param) key inv) =
  [(0, subscribeTo cfg key inv param)].
Proof.
  intros cfg key inv param H. rewrite paramsTrigger_events. simpl.
  destruct (stringify param) eqn:E.
  - reflexivity.
  - elim H. apply stringify_undefined. exact E.
Qed.

Lemma revalidated_static : forall key inputs windowFocus horizon detach param,
  theQueryParam inputs = of_ param ->
  param <> JUndefined ->
  List.filter (fun ev => detach <=? fst ev)
    (revalidated key inputs windowFocus horizon detach) =
  [(detach,
    mkRevalidator (queryKeyAndParamsToCacheKey key param)
      (theInvokeQuery inputs) QueryUnsubscribe
      (ParamsEvent
         (subscribeTo (theQueryConfig inputs) key (theInvokeQuery inputs) param))
      (theQueryConfig inputs))].
Proof.
  intros key inputs windowFocus horizon detach param Hq Hp.
  unfold revalidated. rewrite List.filter_app.
  unfold unsubscribedAt at 1. cbn [events]. rewrite filter_after_before.
  unfold finalized, shift, map. cbn [events]. rewrite take_one_events.
  unfold params'. rewrite Hq, (static_param_subscribes _ _ _ Hp).
  simpl. rewrite Nat.add_0_r, Nat.leb_refl. reflexivity.
Qed.

(** C8 (as amended).  For a stream that [query] returns over a single
    static parameter: when its listener unsubscribes, nothing of the
    merged triggers is passed on from that turn, and, unless the
    parameter is [undefined], exactly one event is passed to the
    revalidation bus in that turn: a ['query-unsubscribe'] with the resolved
    cache key and configuration.  A call without parameter has the
    parameter [null]. *)
Theorem detach_pushes_unsubscribe :
  forall (key : string) (query : QueryFn) (config : option QueryConfig)
         (windowFocus : Obs JsValue) (horizon detach : Time) (param : JsValue),
    param <> JUndefined ->
    (let inputs := WithParam (StaticParam param) query config in
     List.filter (fun ev => detach <=? fst ev)
       (revalidated key inputs windowFocus horizon detach) =
     [(detach,
       mkRevalidator (queryKeyAndParamsToCacheKey key param)
         (theInvokeQuery inputs) QueryUnsubscribe
         (ParamsEvent
            (subscribeTo (theQueryConfig inputs) key (theInvokeQuery inputs) param))
         (theQueryConfig inputs))])
    /\ (let inputs := WithoutParam query config in
        summary (List.filter (fun ev => detach <=? fst ev)
                   (revalidated key inputs windowFocus horizon detach)) =
        [(detach, QueryUnsubscribe, key)])
    /\ (let inputs := WithParam (StaticParam JUndefined) query config in
        List.filter (fun ev => detach <=? fst ev)
          (revalidated key inputs windowFocus horizon detach) = []).
Proof.
  intros key query config windowFocus horizon detach param Hp.
  cbv zeta. split; [|split].
  - apply revalidated_static; [reflexivity | exact Hp].
  - rewrite (@revalidated_static key (WithoutParam query config) windowFocus
               horizon detach JNull eq_refl) by discriminate.
    reflexivity.
  - unfold revalidated. rewrite List.filter_app.
    unfold unsubscribedAt at 1. cbn [events]. rewrite filter_after_before.
    reflexivity.
Qed.

(** The listener of [query("k", {a: 1}, fetchFn)] unsubscribes in turn 7. *)
Lemma detach_pushes_unsubscribe_example :
  summary (List.filter (fun ev => 7 <=? fst ev)
             (revalidated "k" (WithParam (StaticParam a_is_1) alwaysFails None)
                NEVER 100 7)) =
  [(7, QueryUnsubscribe, queryKeyAndParamsToCacheKey "k" a_is_1)].
Proof.
  rewrite (proj1 (@detach_pushes_unsubscribe "k" alwaysFails None NEVER 100 7
                    a_is_1 ltac:(discriminate))).
  reflexivity.
Defined.

(** C8 as stated fails: with the static parameter [undefined] no event at
    all is passed on when the listener unsubscribes; and over the
    parameter stream [1, 2] the event carries the cache key of the first
    value, not the current one. *)
Lemma detach_without_current_key :
  revalidated "k" (WithParam (StaticParam JUndefined) alwaysFails None)
    NEVER 100 7 = []
  /\ summary (revalidated "k" (WithParam (ObservableParam oneThenTwo) alwaysFails None)
                NEVER 100 7) =
     [(1, QuerySubscribe, "k-1"); (4, QueryUnsubscribe, "k-1");
      (4, QuerySubscribe, "k-2"); (7, QueryUnsubscribe, "k-1")].
Proof. split; reflexivity. Qed.

(* ================================================================== *)
(** * More on the retrying invoker *)
(* ================================================================== *)

(** A numeric [retries] that is zero or negative allows no retry: the first
    failure is the only result. *)
Theorem nonpositive_retries_allow_no_retry :
  forall (query : QueryFn) (cfg : RequiredQueryConfig) (loadingState : string)
         (params : JsValue) (r : Z) (l : Time) (e : JsValue) (fuel : nat),
    Config.retries cfg = Value (RetriesNumber r) ->
    (r <= 0)%Z ->
    query params 0 = fails l e ->
    2 <= fuel ->
    attempts query cfg fuel loadingState params =
      Some (mkObs [(l, errorResult 0 e)] (Completed l))
    /\ invokeQuery query cfg fuel loadingState params =
      Some (mkObs [(l, errorResult 0 e)] (Completed l)).
Proof.
  intros query cfg loadingState params r l e fuel Hr Hle Hq Hfuel.
  apply single_attempt; try assumption.
  rewrite (retryCondition_number cfg 0 e Hr). apply Z.ltb_ge. lia.
Qed.

Lemma nonpositive_retries_example :
  invokeQuery alwaysFails minusOneRetries 2 "loading" JNull =
  Some (mkObs [(0, errorResult 0 (JStr "down"))] (Completed 0)).
Proof.
  refine (proj2 (@nonpositive_retries_allow_no_retry alwaysFails minusOneRetries
                   "loading" JNull
                   (-1)%Z 0 (JStr "down") 2 eq_refl _ eq_refl _)); lia.
Defined.

(** With a numeric [retries = n] and a fetch that fails every time, the
    fetch is attempted [n + 1] times: [expand] sees the [n + 1] failures,
    [n] of them relabelled, and the run ends with the error of attempt
    [n] and [retries = n]. *)
Theorem retries_are_exhausted_after_n :
  forall (query : QueryFn) (cfg : RequiredQueryConfig) (loadingState : string)
         (params : JsValue) (n : nat) (lat : nat -> Time) (err : nat -> JsValue)
         (fuel : nat),
    Config.retries cfg = Value (RetriesNumber (Z.of_nat n)) ->
    String.eqb loadingState "error" = false ->
    (forall i, i <= n -> query params i = fails (lat i) (err i)) ->
    n + 2 <= fuel ->
    let turn := arrival lat (retryDelay cfg) in
    attempts query cfg fuel loadingState params =
      Some (mkObs
              (flat_map (fun i => [(turn i, errorResult i (err i));
                                   (turn i, loadingResult loadingState i (err i))])
                 (seq 0 n) ++ [(turn n, errorResult n (err n))])
              (Completed (turn n)))
    /\ invokeQuery query cfg fuel loadingState params =
      Some (mkObs
              (List.map (fun i => (turn i, loadingResult loadingState i (err i)))
                 (seq 0 n) ++ [(turn n, errorResult n (err n))])
              (Completed (turn n))).
Proof.
  intros query cfg loadingState params n lat err fuel Hr Hl Hq Hfuel. cbv zeta.
  assert (Hretry : forall i, i < n -> retryCondition cfg i (err i) = true).
  { intros i Hi. rewrite (retryCondition_number cfg i (err i) Hr).
    apply Z.ltb_lt. lia. }
  assert (Hstop : retryCondition cfg n (err n) = false).
  { rewrite (retryCondition_number cfg n (err n) Hr). apply Z.ltb_ge. lia. }
  assert (Hfail : forall i, i < n -> query params i = fails (lat i) (err i))
    by (intros i Hi; apply Hq; lia).
  split.
  - apply attempts_failure; auto.
  - apply invokeQuery_failure; auto.
Qed.

Lemma retries_are_exhausted_example :
  invokeQuery failsWithCallNumber twoRetries 4 "loading" JNull =
  Some (mkObs [(0, loadingResult "loading" 0 (JNum 0));
               (1, loadingResult "loading" 1 (JNum 1));
               (2, errorResult 2 (JNum 2))]
              (Completed 2)).
Proof.
  refine (proj2 (@retries_are_exhausted_after_n failsWithCallNumber twoRetries
                   "loading" JNull 2 (fun _ => 0) (fun i => JNum (Z.of_nat i)) 4
                   eq_refl eq_refl _ _)).
  - intros i _. reflexivity.
  - lia.
Defined.

Lemma expand_unrefused : forall query cfg loadingState params lat err,
  (forall i, query params i = fails (lat i) (err i)) ->
  (forall i, retryCondition cfg i (err i) = true) ->
  forall fuel i t fin,
    expand fuel (retryOrStop query cfg loadingState params)
      (mkObs [(t, errorResult i (err i))] fin) = None.
Proof.
  intros query cfg loadingState params lat err Hq Hretry.
  induction fuel as [|fuel IH]; intros i t fin; [reflexivity|].
  rewrite expand_cons. cbn [fst snd].
  unfold retryOrStop at 2, retriesOf, errorOf, errorResult.
  cbn [state retries error]. rewrite String.eqb_refl, Hretry. cbn [andb].
  unfold startWith, switchMap, timer, prepend.
  cbn [events ending switchFrom fst snd].
  rewrite (invoke_fails query params (i + 1) (Hq (i + 1))).
  unfold seal, shift. cbn [events ending List.map fst snd mergeEnd shiftEnd].
  destruct fuel as [|fuel']; [reflexivity|].
  rewrite expand_cons. rewrite (IH (i + 1)).
  destruct (expand fuel' _ _); reflexivity.
Qed.

(** A retry predicate that never refuses, over a fetch that never
    succeeds, retries without end: no amount of fuel gives a run. *)
Theorem unrefused_failures_never_settle :
  forall (query : QueryFn) (cfg : RequiredQueryConfig) (loadingState : string)
         (params : JsValue) (lat : nat -> Time) (err : nat -> JsValue),
    (forall i, query params i = fails (lat i) (err i)) ->
    (forall i, retryCondition cfg i (err i) = true) ->
    forall fuel,
      attempts query cfg fuel loadingState params = None
      /\ invokeQuery query cfg fuel loadingState params = None.
Proof.
  intros query cfg loadingState params lat err Hq Hretry fuel.
  assert (H : attempts query cfg fuel loadingState params = None).
  { unfold attempts. rewrite (invoke_fails query params 0 (Hq 0)).
    apply (@expand_unrefused query cfg loadingState params lat err Hq Hretry). }
  split; [exact H|]. unfold invokeQuery. rewrite H. reflexivity.
Qed.

Lemma unrefused_failures_example :
  attempts failsWithCallNumber retryForever 50 "loading" JNull = None
  /\ invokeQuery failsWithCallNumber retryForever 50 "loading" JNull = None.
Proof.
  refine (@unrefused_failures_never_settle failsWithCallNumber retryForever
            "loading" JNull (fun _ => 0) (fun i => JNum (Z.of_nat i)) _ _ 50);
    intros i; reflexivity.
Defined.

(** Once attempt [k] has brought the chain to its end, the fetch function
    is not consulted again: a fetch function that answers the calls
    [0..k] alike gives the same run, whatever it would answer later. *)
Theorem later_answers_are_not_asked_for :
  forall (query query' : QueryFn) (cfg : RequiredQueryConfig)
         (loadingState : string) (params : JsValue) (k : nat)
         (lat : nat -> Time) (err : nat -> JsValue) (final : QueryOutput)
         (extra : Time) (fuel : nat),
    String.eqb loadingState "error" = false ->
    (forall i, i < k -> query params i = fails (lat i) (err i)) ->
    (forall i, i < k -> retryCondition cfg i (err i) = true) ->
    settles query cfg params lat err k final extra ->
    (forall i, i <= k -> query' params i = query params i) ->
    k + 2 <= fuel ->
    invokeQuery query' cfg fuel loadingState params =
    invokeQuery query cfg fuel loadingState params.
Proof.
  intros query query' cfg loadingState params k lat err final extra fuel
    Hl Hf Hr Hs Hsame Hfuel.
  destruct (@settles_cases query cfg loadingState params k lat err final extra
              Hl Hf Hr Hs fuel Hfuel) as [_ ->].
  apply (@settles_cases query' cfg loadingState params k lat err final extra);
    try assumption.
  - intros i Hi. rewrite Hsame by lia. apply Hf. exact Hi.
  - unfold settles in *. rewrite (Hsame k (le_n k)). exact Hs.
Qed.

Lemma later_answers_example :
  invokeQuery (fun p n => if 3 <=? n then fails 0 JNull else flakyFetch p n)
    twoRetries 4 "loading" JNull =
  invokeQuery flakyFetch twoRetries 4 "loading" JNull.
Proof.
  refine (@later_answers_are_not_asked_for flakyFetch _ twoRetries "loading" JNull
            2 (fun _ => 0)
            (fun i => match i with 0 => JStr "first" | _ => JStr "second" end)
            (successResult 2 (JNum 42)) 0 4 eq_refl _ _ _ _ _).
  - intros [|[|i]] H; [reflexivity | reflexivity | lia].
  - intros [|[|i]] H; [reflexivity | reflexivity | lia].
  - left. exists (JNum 42). split; reflexivity.
  - intros [|[|[|i]]] H; [reflexivity | reflexivity | reflexivity | lia].
  - lia.
Defined.

(* ================================================================== *)
(** * More on the parameter trigger *)
(* ================================================================== *)

Lemma paramChanges_closesLatest : forall cfg key inv evs previous opened,
  (isUndefined previous = false ->
   opened = Some (queryKeyAndParamsToCacheKey key previous)) ->
  closesLatest opened (paramChanges cfg key inv previous evs) = true.
Proof.
  intros cfg key inv. induction evs as [|[t v] rest IH]; intros previous opened H;
    [reflexivity|].
  cbn [paramChanges].
  destruct (sameText (stringify previous) (stringify v)); [apply IH; exact H|].
  destruct (isUndefined previous) eqn:E.
  - cbn [app closesLatest snd trigger subscribeTo RxQuery.key].
    apply IH. reflexivity.
  - rewrite (H eq_refl).
    cbn [app closesLatest snd trigger unsubscribeFrom subscribeTo RxQuery.key].
    rewrite String.eqb_refl. cbn [andb]. apply IH. reflexivity.
Qed.

(** Whatever the parameter stream delivers, every unsubscribe event of the
    parameter trigger names the cache key of the subscribe event before
    it, which no earlier unsubscribe event has closed. *)
Theorem paramsTrigger_closes_what_it_opened :
  forall (cfg : RequiredQueryConfig) (queryParam : Obs JsValue) (key : string)
         (inv : QueryInvoker),
    closesLatest None (events (paramsTrigger cfg queryParam key inv)) = true.
Proof.
  intros cfg queryParam key inv. rewrite paramsTrigger_events.
  apply paramChanges_closesLatest. discriminate.
Qed.

Lemma paramChanges_oneAtATime : forall cfg key inv evs previous,
  Forall (fun ev => snd ev <> JUndefined) evs ->
  oneAtATime
    (if isUndefined previous then None
     else Some (queryKeyAndParamsToCacheKey key previous))
    (paramChanges cfg key inv previous evs) = true.
Proof.
  intros cfg key inv. induction evs as [|[t v] rest IH]; intros previous H;
    [reflexivity|].
  inversion H as [|? ? Hv Hrest]; subst. cbn [snd] in Hv.
  cbn [paramChanges].
  destruct (sameText (stringify previous) (stringify v)); [apply IH; exact Hrest|].
  assert (Ev : isUndefined v = false) by (destruct v; congruence || reflexivity).
  specialize (IH v Hrest). rewrite Ev in IH.
  destruct (isUndefined previous) eqn:E.
  - cbn [app oneAtATime snd trigger subscribeTo RxQuery.key]. exact IH.
  - cbn [app oneAtATime snd trigger unsubscribeFrom subscribeTo RxQuery.key].
    rewrite String.eqb_refl. cbn [andb]. exact IH.
Qed.

(** When the parameter stream never delivers [undefined], the events of
    the parameter trigger open and close strictly in turn: a subscribe
    event comes only when no cache key is subscribed to, so at most one
    is at any time. *)
Theorem paramsTrigger_subscribes_one_at_a_time :
  forall (cfg : RequiredQueryConfig) (queryParam : Obs JsValue) (key : string)
         (inv : QueryInvoker),
    Forall (fun ev => snd ev <> JUndefined) (events queryParam) ->
    oneAtATime None (events (paramsTrigger cfg queryParam key inv)) = true.
Proof.
  intros cfg queryParam key inv H. rewrite paramsTrigger_events.
  apply (@paramChanges_oneAtATime cfg key inv (events queryParam) JUndefined H).
Qed.

Lemma paramsTrigger_one_at_a_time_example :
  oneAtATime None
    (events (paramsTrigger DEFAULT_QUERY_CONFIG oneThenTwo "k" noInvoker)) = true.
Proof.
  refine (@paramsTrigger_subscribes_one_at_a_time DEFAULT_QUERY_CONFIG oneThenTwo
            "k" noInvoker _).
  repeat constructor; discriminate.
Defined.

(* ================================================================== *)
(** * The focus and interval triggers *)
(* ================================================================== *)

Lemma In_seal : forall A (o : Obs A) ev, In ev (events (seal o)) -> In ev (events o).
Proof.
  intros A o ev. unfold seal. destruct (ending o); cbn [events]; auto.
  intros H. apply filter_In in H. tauto.
Qed.

Lemma In_withLatestFrom : forall A B (other : Obs B) (o : Obs A) t a b,
  In (t, (a, b)) (events (withLatestFrom other o)) ->
  In (t, a) (events o) /\ latestAt t (events other) = Some b.
Proof.
  intros A B other o t a b H. unfold withLatestFrom in H.
  apply In_seal in H. cbn [events] in H.
  apply in_flat_map in H as [[t' a'] [Hin H]]. cbn [fst snd] in H.
  destruct (latestAt t' (events other)) as [b'|] eqn:E; [|destruct H].
  destruct H as [H|[]]. injection H as -> -> ->. split; assumption.
Qed.

(** Every event of the focus trigger answers a focus event of the window
    in its turn, and carries the cache key of the latest value that the
    parameter stream has delivered by then, [undefined] included; focus
    events that come before the first parameter value yield nothing. *)
Theorem focusTrigger_carries_latest_params :
  forall (windowFocus : Obs JsValue) (cfg : RequiredQueryConfig)
         (queryParam : Obs JsValue) (key : string) (inv : QueryInvoker)
         (t : Time) (r : Revalidator),
    In (t, r) (events (focusTrigger windowFocus cfg queryParam key inv)) ->
    Config.refetchOnWindowFocus cfg = Value true
    /\ (exists event, In (t, event) (events windowFocus))
    /\ exists p,
         latestAt t (events queryParam) = Some p
         /\ r = mkRevalidator (queryKeyAndParamsToCacheKey key p) inv Focus
                  (ParamsValue p) cfg.
Proof.
  intros windowFocus cfg queryParam key inv t r H. unfold focusTrigger in H.
  destruct (Config.refetchOnWindowFocus cfg) as [|[|]] eqn:E;
    try (destruct H; fail).
  split; [reflexivity|]. unfold map in H. cbn [events] in H.
  apply in_map_iff in H as [[t' [event p]] [Heq Hin]].
  cbn [fst snd] in Heq. injection Heq as -> <-.
  apply In_withLatestFrom in Hin as [Hin Hlatest].
  split; [exists event; exact Hin|]. exists p. split; [exact Hlatest | reflexivity].
Qed.

Lemma focusTrigger_example :
  exists p,
    latestAt 4 (events (of_ JNull)) = Some p
    /\ mkRevalidator "k" noInvoker Focus (ParamsValue JNull) focusConfig =
       mkRevalidator (queryKeyAndParamsToCacheKey "k" p) noInvoker Focus
         (ParamsValue p) focusConfig.
Proof.
  refine (proj2 (proj2 (@focusTrigger_carries_latest_params twoFocusEvents
                          focusConfig (of_ JNull) "k" noInvoker 4 _ _))).
  simpl. left. reflexivity.
Defined.

(** The same for the interval trigger: every event answers a tick of the
    refetch interval in its turn, and carries the cache key of the latest
    parameter value delivered by then. *)
Theorem intervalTrigger_carries_latest_params :
  forall (horizon : Time) (cfg : RequiredQueryConfig) (queryParam : Obs JsValue)
         (key : string) (inv : QueryInvoker) (t : Time) (r : Revalidator),
    In (t, r) (events (intervalTrigger horizon cfg queryParam key inv)) ->
    (exists refetchInterval,
        Config.refetchInterval cfg = Value refetchInterval
        /\ exists tick,
             In (t, tick)
               (events (match refetchInterval with
                        | IntervalObservable ticks => ticks
                        | IntervalNumber ms => map JNum (interval horizon ms)
                        end)))
    /\ exists p,
         latestAt t (events queryParam) = Some p
         /\ r = mkRevalidator (queryKeyAndParamsToCacheKey key p) inv Interval
                  (ParamsValue p) cfg.
Proof.
  intros horizon cfg queryParam key inv t r H. unfold intervalTrigger in H.
  destruct (Config.refetchInterval cfg) as [|refetchInterval] eqn:E;
    [destruct H|].
  unfold map at 1 in H. cbn [events] in H.
  apply in_map_iff in H as [[t' [tick p]] [Heq Hin]].
  cbn [fst snd] in Heq. injection Heq as -> <-.
  apply In_withLatestFrom in Hin as [Hin Hlatest].
  split.
  - exists refetchInterval. split; [reflexivity|]. exists tick. exact Hin.
  - exists p. split; [exact Hlatest | reflexivity].
Qed.

Lemma intervalTrigger_example :
  exists p,
    latestAt 3 (events oneThenTwo) = Some p
    /\ mkRevalidator "k-2" noInvoker Interval (ParamsValue (JNum 2)) everyTwo =
       mkRevalidator (queryKeyAndParamsToCacheKey "k" p) noInvoker Interval
         (ParamsValue p) everyTwo.
Proof.
  refine (proj2 (@intervalTrigger_carries_latest_params 10 everyTwo oneThenTwo
                   "k" noInvoker 3 _ _)).
  simpl. left. reflexivity.
Defined.

Lemma flat_map_one : forall A B (f : A -> B) (l : list A),
  flat_map (fun x => [f x]) l = List.map f l.
Proof.
  intros A B f l. induction l as [|x l IH]; [reflexivity|].
  simpl. rewrite IH. reflexivity.
Qed.

Lemma seal_noError : forall A (o : Obs A), noError (ending o) -> seal o = o.
Proof. intros A [evs [| |]] H; try reflexivity. destruct H. Qed.

(** Over a static parameter, [undefined] included, the focus trigger
    answers every focus event of the window with one focus event for the
    cache key of the parameter, when [refetchOnWindowFocus] is [true], and
    with nothing otherwise. *)
Theorem focusTrigger_over_static_param :
  forall (windowFocus : Obs JsValue) (cfg : RequiredQueryConfig) (p : JsValue)
         (key : string) (inv : QueryInvoker),
    noError (ending windowFocus) ->
    events (focusTrigger windowFocus cfg (of_ p) key inv) =
    match Config.refetchOnWindowFocus cfg with
    | Value true =>
        List.map
          (fun ev => (fst ev,
                      mkRevalidator (queryKeyAndParamsToCacheKey key p) inv Focus
                        (ParamsValue p) cfg))
          (events windowFocus)
    | _ => []
    end.
Proof.
  intros windowFocus cfg p key inv H. unfold focusTrigger.
  destruct (Config.refetchOnWindowFocus cfg) as [|[|]]; try reflexivity.
  unfold map, withLatestFrom. cbn [events ending of_].
  rewrite seal_noError by exact H. cbn [events].
  rewrite (@flat_map_one _ _ (fun ev : Time * JsValue => (fst ev, (snd ev, p)))).
  rewrite List.map_map. reflexivity.
Qed.

Lemma focusTrigger_static_example :
  summary (events (focusTrigger twoFocusEvents focusConfig (of_ JUndefined) "k"
                     noInvoker)) =
  [(4, Focus, "k"); (9, Focus, "k")].
Proof.
  rewrite (@focusTrigger_over_static_param twoFocusEvents focusConfig JUndefined
             "k" noInvoker I).
  reflexivity.
Defined.

(* ================================================================== *)
(** * The merged triggers *)
(* ================================================================== *)

Lemma In_mergeEvents : forall A (xs ys : list (Time * A)) ev,
  In ev (mergeEvents xs ys) -> In ev xs \/ In ev ys.
Proof.
  intros A. induction xs as [|x xs IHx]; intros ys ev H; [right; exact H|].
  induction ys as [|y ys IHy]; [left; exact H|].
  cbn [mergeEvents] in H. destruct (fst x <=? fst y).
  - destruct H as [H|H]; [left; left; exact H|].
    apply IHx in H. destruct H; [left; right|right]; assumption.
  - destruct H as [H|H]; [right; left; exact H|].
    apply IHy in H. destruct H; [left|right; right]; assumption.
Qed.

Lemma In_merge : forall A (a b : Obs A) ev,
  In ev (events (merge a b)) -> In ev (events a) \/ In ev (events b).
Proof.
  intros A a b ev H. unfold merge in H. apply In_seal in H.
  apply In_mergeEvents. exact H.
Qed.

Lemma triggers_unfold : forall key inputs windowFocus horizon,
  triggers key inputs windowFocus horizon =
  merge (shift 1 (params' key inputs))
    (merge (shift 2 (focus' key inputs windowFocus))
       (merge (shift 3 (interval' key inputs horizon))
          (mkObs [] (Completed 4)))).
Proof. reflexivity. Qed.

Lemma In_shift : forall A d (o : Obs A) t a,
  In (t, a) (events (shift d o)) -> exists t', t = d + t' /\ In (t', a) (events o).
Proof.
  intros A d o t a H. unfold shift in H. cbn [events] in H.
  apply in_map_iff in H as [[t' a'] [Heq Hin]]. cbn [fst snd] in Heq.
  injection Heq as <- <-. exists t'. split; [reflexivity | exact Hin].
Qed.

Lemma paramChanges_subscriptions : forall cfg key inv evs previous t r,
  In (t, r) (paramChanges cfg key inv previous evs) -> isSubscription r = true.
Proof.
  intros cfg key inv. induction evs as [|[t0 v] rest IH]; intros previous t r H;
    [destruct H|].
  cbn [paramChanges] in H.
  destruct (sameText (stringify previous) (stringify v)); [exact (IH _ _ _ H)|].
  apply in_app_or in H as [H|H].
  - destruct (isUndefined previous); [destruct H|].
    destruct H as [H|[]]. injection H as <- <-. reflexivity.
  - destruct H as [H|H]; [injection H as <- <-; reflexivity|].
    exact (IH _ _ _ H).
Qed.

Lemma focusTrigger_kind : forall windowFocus cfg queryParam key inv t r,
  In (t, r) (events (focusTrigger windowFocus cfg queryParam key inv)) ->
  trigger r = Focus.
Proof.
  intros windowFocus cfg queryParam key inv t r H. unfold focusTrigger in H.
  destruct (Config.refetchOnWindowFocus cfg) as [|[|]];
    try (destruct H; fail).
  unfold map in H. cbn [events] in H.
  apply in_map_iff in H as [[t' [event p]] [Heq _]].
  cbn [fst snd] in Heq. injection Heq as _ <-. reflexivity.
Qed.

Lemma intervalTrigger_kind : forall horizon cfg queryParam key inv t r,
  In (t, r) (events (intervalTrigger horizon cfg queryParam key inv)) ->
  trigger r = Interval.
Proof.
  intros horizon cfg queryParam key inv t r H. unfold intervalTrigger in H.
  destruct (Config.refetchInterval cfg) as [|refetchInterval];
    [destruct H|].
  unfold map at 1 in H. cbn [events] in H.
  apply in_map_iff in H as [[t' [tick p]] [Heq _]].
  cbn [fst snd] in Heq. injection Heq as _ <-. reflexivity.
Qed.




Lemma filter_mergeEvents_left : forall A (keep : Time * A -> bool) xs ys,
  Forall (fun y => keep y = false) ys ->
  List.filter keep (mergeEvents xs ys) = List.filter keep xs.
Proof.
  intros A keep. induction xs as [|x xs IHx]; intros ys H.
  - cbn [mergeEvents]. induction H as [|y ys Hy _ IH]; [reflexivity|].
    cbn [List.filter]. rewrite Hy. exact IH.
  - induction H as [|y ys Hy Hys IHy]; [rewrite mergeEvents_nil_r; reflexivity|].
    cbn [mergeEvents]. destruct (fst x <=? fst y).
    + cbn [List.filter]. rewrite (IHx (y :: ys)) by (constructor; assumption).
      reflexivity.
    + cbn [List.filter]. rewrite Hy. exact IHy.
Qed.

Lemma merge_noError : forall A (a b : Obs A),
  noError (ending a) -> noError (ending b) ->
  merge a b = mkObs (mergeEvents (events a) (events b))
                    (mergeEnd (ending a) (ending b))
  /\ noError (ending (merge a b)).
Proof.
  intros A a b Ha Hb. unfold merge.
  assert (H : noError (mergeEnd (ending a) (ending b)))
    by (apply noError_mergeEnd; assumption).
  rewrite seal_noError by exact H. split; [reflexivity | exact H].
Qed.

Lemma withLatestFrom_noError : forall A B (other : Obs B) (o : Obs A),
  noError (ending other) -> noError (ending o) ->
  noError (ending (withLatestFrom other o)).
Proof.
  intros A B other o Ho H. unfold withLatestFrom. rewrite ending_seal.
  cbn [ending]. destruct (ending other); [exact H | exact H | destruct Ho].
Qed.

Lemma focus_noError : forall key inputs windowFocus,
  noError (ending (theQueryParam inputs)) -> noError (ending windowFocus) ->
  noError (ending (focus' key inputs windowFocus)).
Proof.
  intros key inputs windowFocus Hp Hw. unfold focus', focusTrigger.
  destruct (Config.refetchOnWindowFocus (theQueryConfig inputs)) as [|[|]];
    try exact I.
  unfold map. cbn [ending]. apply withLatestFrom_noError; assumption.
Qed.

Lemma interval_noError : forall key inputs horizon,
  noError (ending (theQueryParam inputs)) ->
  intervalNeverFails (theQueryConfig inputs) ->
  noError (ending (interval' key inputs horizon)).
Proof.
  intros key inputs horizon Hp Hi. unfold interval', intervalTrigger.
  unfold intervalNeverFails in Hi.
  destruct (Config.refetchInterval (theQueryConfig inputs)) as [|[ms|ticks]];
    try exact I; unfold map at 1; cbn [ending];
    apply withLatestFrom_noError; try assumption; exact I.
Qed.

Lemma filter_all : forall A (keep : A -> bool) l,
  Forall (fun x => keep x = true) l -> List.filter keep l = l.
Proof.
  intros A keep l H. induction H as [|x l Hx _ IH]; [reflexivity|].
  cbn [List.filter]. rewrite Hx, IH. reflexivity.
Qed.

Lemma subscriptions_of_triggers :
  forall (key : string) (inputs : Inputs) (windowFocus : Obs JsValue)
         (horizon : Time),
    noError (ending (theQueryParam inputs)) ->
    noError (ending windowFocus) ->
    intervalNeverFails (theQueryConfig inputs) ->
    List.filter (fun ev => isSubscription (snd ev))
      (events (triggers key inputs windowFocus horizon)) =
    events (shift 1 (params' key inputs)).
Proof.
  intros key inputs windowFocus horizon Hp Hw Hi. rewrite triggers_unfold.
  assert (Np : noError (ending (shift 1 (params' key inputs))))
    by (apply noError_shiftEnd; exact Hp).
  assert (Nf : noError (ending (shift 2 (focus' key inputs windowFocus))))
    by (apply noError_shiftEnd, focus_noError; assumption).
  assert (Ni : noError (ending (shift 3 (interval' key inputs horizon))))
    by (apply noError_shiftEnd, interval_noError; assumption).
  destruct (@merge_noError _ (shift 3 (interval' key inputs horizon))
              (mkObs [] (Completed 4)) Ni I) as [_ N3].
  destruct (@merge_noError _ (shift 2 (focus' key inputs windowFocus)) _ Nf N3)
    as [_ N2].
  destruct (@merge_noError _ (shift 1 (params' key inputs)) _ Np N2) as [-> _].
  cbn [events]. rewrite filter_mergeEvents_left.
  - apply filter_all. apply Forall_forall. intros [t r] H.
    apply In_shift in H as (t' & _ & H). unfold params' in H.
    rewrite paramsTrigger_events in H. cbn [snd].
    exact (paramChanges_subscriptions _ _ _ _ _ _ _ H).
  - apply Forall_forall. intros [t r] H. cbn [snd].
    apply In_merge in H as [H|H].
    + apply In_shift in H as (t' & _ & H).
      unfold isSubscription. rewrite (focusTrigger_kind _ _ _ _ _ _ _ H).
      reflexivity.
    + apply In_merge in H as [H|[]].
      apply In_shift in H as (t' & _ & H).
      unfold isSubscription. rewrite (intervalTrigger_kind _ _ _ _ _ _ _ H).
      reflexivity.
Qed.

(** Among the events that the merged triggers pass to the revalidation
    bus, the subscribe and unsubscribe events are those of the parameter
    trigger, in its order, one turn after the listener's subscription;
    focus and interval events come in between without displacing any.
    None of the streams of the host is to fail. *)
Theorem triggers_keep_the_subscriptions :
  forall (key : string) (inputs : Inputs) (windowFocus : Obs JsValue)
         (horizon : Time),
    noError (ending (theQueryParam inputs)) ->
    noError (ending windowFocus) ->
    intervalNeverFails (theQueryConfig inputs) ->
    List.filter (fun ev => isSubscription (snd ev))
      (events (triggers key inputs windowFocus horizon)) =
    events (shift 1 (params' key inputs)).
Proof.
  intros key inputs windowFocus horizon Hp Hw Hi.
  exact (@subscriptions_of_triggers key inputs windowFocus horizon Hp Hw Hi).
Qed.

Lemma triggers_keep_example :
  List.filter (fun ev => isSubscription (snd ev))
    (events (triggers "k" (WithParam (ObservableParam oneThenTwo) alwaysFails
                             (Some focusOn)) twoFocusEvents 10)) =
  events (shift 1 (params' "k" (WithParam (ObservableParam oneThenTwo) alwaysFails
                                  (Some focusOn)))).
Proof.
  exact (@triggers_keep_the_subscriptions "k"
           (WithParam (ObservableParam oneThenTwo) alwaysFails (Some focusOn))
           twoFocusEvents 10 I I I).
Defined.

Lemma filter_swap : forall A (f g : A -> bool) l,
  List.filter f (List.filter g l) = List.filter g (List.filter f l).
Proof.
  intros A f g l. induction l as [|x l IH]; [reflexivity|].
  cbn [List.filter]. destruct (f x) eqn:Ef, (g x) eqn:Eg; cbn [List.filter];
    rewrite ?Ef, ?Eg, IH; reflexivity.
Qed.

(** The whole life of a listener over a static parameter other than
    [undefined], when it unsubscribes in turn 2 or later: the revalidation
    bus gets one subscribe event in turn 1 and one unsubscribe event in
    the turn of the unsubscription, both for the resolved cache key, and
    no other subscribe or unsubscribe event. *)
Theorem listener_opens_and_closes_once :
  forall (key : string) (query : QueryFn) (config : option QueryConfig)
         (windowFocus : Obs JsValue) (horizon detach : Time) (param : JsValue),
    let inputs := WithParam (StaticParam param) query config in
    param <> JUndefined ->
    2 <= detach ->
    noError (ending windowFocus) ->
    intervalNeverFails (theQueryConfig inputs) ->
    summary (List.filter (fun ev => isSubscription (snd ev))
               (revalidated key inputs windowFocus horizon detach)) =
    [(1, QuerySubscribe, queryKeyAndParamsToCacheKey key param);
     (detach, QueryUnsubscribe, queryKeyAndParamsToCacheKey key param)].
Proof.
  intros key query config windowFocus horizon detach param inputs Hp Hd Hw Hi.
  unfold revalidated. rewrite List.filter_app.
  unfold unsubscribedAt at 1. cbn [events]. rewrite filter_swap.
  rewrite (@subscriptions_of_triggers key inputs windowFocus horizon I Hw Hi).
  unfold finalized, shift, map. cbn [events]. rewrite take_one_events.
  unfold params'.
  change (theQueryParam inputs) with (of_ param).
  rewrite (static_param_subscribes _ _ _ Hp).
  cbn [List.map List.filter fst snd firstn].
  replace (1 + 0 <? detach) with true by (symmetry; apply Nat.ltb_lt; lia).
  cbn [app List.filter isSubscription trigger snd summary List.map fst
       RxQuery.key subscribeTo].
  rewrite (Nat.add_0_r detach). reflexivity.
Qed.

Lemma listener_opens_and_closes_example :
  summary (List.filter (fun ev => isSubscription (snd ev))
             (revalidated "k" (WithParam (StaticParam a_is_1) alwaysFails
                                 (Some focusOn)) twoFocusEvents 10 7)) =
  [(1, QuerySubscribe, queryKeyAndParamsToCacheKey "k" a_is_1);
   (7, QueryUnsubscribe, queryKeyAndParamsToCacheKey "k" a_is_1)].
Proof.
  refine (@listener_opens_and_closes_once "k" alwaysFails (Some focusOn)
            twoFocusEvents 10 7 a_is_1 _ _ I I).
  - discriminate.
  - lia.
Defined.

(* ================================================================== *)
(** * More on the stream that [query] returns *)
(* ================================================================== *)

Lemma In_distinctFrom : forall A (compare : A -> A -> bool) evs kept ev,
  In ev (distinctFrom compare kept evs) -> In ev evs.
Proof.
  intros A compare. induction evs as [|[t x] rest IH]; intros kept ev H;
    [destruct H|].
  cbn [distinctFrom] in H. destruct (compare kept x).
  - right. exact (IH _ _ H).
  - destruct H as [H|H]; [left; exact H | right; exact (IH _ _ H)].
Qed.

Lemma In_distinctUntilChanged : forall A (compare : A -> A -> bool) (o : Obs A) ev,
  In ev (events (distinctUntilChanged compare o)) -> In ev (events o).
Proof.
  intros A compare o ev H. unfold distinctUntilChanged in H. cbn [events] in H.
  destruct (events o) as [|[t x] rest]; [destruct H|].
  destruct H as [H|H]; [left; exact H | right; exact (In_distinctFrom _ _ _ _ H)].
Qed.

(** Every emission of the stream that [query] returns is the result that
    a snapshot of the cache, arriving in that turn, holds under the cache
    key of the latest event of the parameter trigger; snapshots without a
    group under that key, and snapshots that come before the parameter
    trigger has emitted, yield nothing. *)
Theorem results_come_from_the_cache :
  forall (key : string) (inputs : Inputs) (cache : Obs Cache) (t : Time)
         (v : option (Ref QueryOutput)),
    In (t, v) (events (results key inputs cache)) ->
    exists snapshot latest group,
      In (t, snapshot) (events cache)
      /\ latestAt t (events (params' key inputs)) = Some latest
      /\ snapshot (RxQuery.key latest) = Some group
      /\ v = Some (result group).
Proof.
  intros key inputs cache t v H.
  unfold results, share, finalize in H.
  apply In_distinctUntilChanged in H. unfold map at 1 in H. cbn [events] in H.
  apply in_map_iff in H as [[t1 g] [Heq H]]. cbn [fst snd] in Heq.
  injection Heq as -> <-.
  unfold filter in H. cbn [events] in H. apply filter_In in H as [H Hsome].
  cbn [snd] in Hsome. destruct g as [group|]; [|discriminate].
  unfold map in H. cbn [events] in H.
  apply in_map_iff in H as [[t2 [snapshot latest]] [Heq H]]. cbn [fst snd] in Heq.
  injection Heq as -> Hg.
  apply In_withLatestFrom in H as [Hc Hl].
  exists snapshot, latest, group. repeat split; assumption.
Qed.

Lemma results_come_from_example :
  exists snapshot latest group,
    In (5, snapshot) (events threeSnapshots)
    /\ latestAt 5 (events (params' "k" (WithoutParam alwaysFails None))) = Some latest
    /\ snapshot (RxQuery.key latest) = Some group
    /\ Some (mkRef 2 (successResult 0 (JNum 8))) = Some (result group).
Proof.
  refine (@results_come_from_the_cache "k" (WithoutParam alwaysFails None)
            threeSnapshots 5 (Some (mkRef 2 (successResult 0 (JNum 8)))) _).
  simpl. right. left. reflexivity.
Defined.

Lemma distinctFrom_sorted : forall A (compare : A -> A -> bool) evs kept t0,
  Sorted.Sorted (fun a b : Time * A => compare (snd a) (snd b) = false)
    ((t0, kept) :: distinctFrom compare kept evs).
Proof.
  intros A compare. induction evs as [|[t x] rest IH]; intros kept t0.
  - repeat constructor.
  - cbn [distinctFrom]. destruct (compare kept x) eqn:E; [apply IH|].
    constructor; [apply IH|]. constructor. exact E.
Qed.

Lemma Sorted_weaken : forall A (R R' : A -> A -> Prop) l,
  (forall a b, R a b -> R' a b) -> Sorted.Sorted R l -> Sorted.Sorted R' l.
Proof.
  intros A R R' l HR H. induction H as [|x l _ IH Hd]; constructor; [exact IH|].
  destruct Hd; constructor. apply HR. assumption.
Qed.

(** The stream that [query] returns never emits the same result object
    twice in a row: a snapshot of the cache that still holds the object
    emitted last emits nothing. *)
Theorem results_never_repeat_an_object :
  forall (key : string) (inputs : Inputs) (cache : Obs Cache),
    Sorted.Sorted
      (fun a b : Time * option (Ref QueryOutput) =>
         forall x y, snd a = Some x -> snd b = Some y -> address x <> address y)
      (events (results key inputs cache)).
Proof.
  intros key inputs cache. unfold results, share, finalize, distinctUntilChanged.
  cbn [events].
  match goal with
  | |- Sorted.Sorted _ (match ?l with _ => _ end) => destruct l as [|[t0 x0] rest]
  end; [constructor|].
  eapply Sorted_weaken; [|apply distinctFrom_sorted].
  intros a b H x y Ha Hb. cbv beta in H. rewrite Ha, Hb in H.
  unfold sameRef in H. apply Nat.eqb_neq. exact H.
Qed.

(* ================================================================== *)
(** * More on cache keys *)
(* ================================================================== *)

Lemma prefix_append : forall a b : string, String.prefix a (a +++ b) = true.
Proof.
  induction a as [|x a IH]; intros b; simpl; [destruct b; reflexivity|].
  destruct (ascii_dec x x) as [_|H]; [apply IH | elim H; reflexivity].
Qed.

(** The cache key of a query always starts with the query key. *)
Theorem cacheKey_starts_with_the_key :
  forall (key : string) (params : JsValue),
    String.prefix key (queryKeyAndParamsToCacheKey key params) = true.
Proof.
  intros key params. unfold queryKeyAndParamsToCacheKey.
  destruct (negb (isUndefined params) && negb (isNull params)).
  - apply prefix_append.
  - rewrite <- (prefix_append key EmptyString). f_equal.
    clear. induction key as [|x key IH]; simpl; [reflexivity | rewrite <- IH; reflexivity].
Qed.

(** Distinct queries can share a cache key: a number and the string of
    its digits; a dash in the query key or in a string parameter;
    [null] and [undefined]. *)
Theorem cacheKey_collisions :
  forall (key : string) (n : Z) (s t : string),
    queryKeyAndParamsToCacheKey key (JNum n) =
      queryKeyAndParamsToCacheKey key (JStr (numberToString n))
    /\ queryKeyAndParamsToCacheKey key (JStr (s +++ "-" +++ t)) =
       queryKeyAndParamsToCacheKey (key +++ "-" +++ s) (JStr t)
    /\ queryKeyAndParamsToCacheKey key JNull =
       queryKeyAndParamsToCacheKey key JUndefined.
Proof.
  intros key n s t. split; [reflexivity|]. split; [|reflexivity].
  unfold queryKeyAndParamsToCacheKey. simpl.
  rewrite !append_assoc. reflexivity.
Qed.

Lemma numberToString_inj : forall n m : Z,
  numberToString n = numberToString m -> n = m.
Proof.
  intros n m H. unfold numberToString in H.
  assert (Hn : forall z, NilZero.int_of_string (NilZero.string_of_int (Z.to_int z))
                         = Some (Z.to_int z)).
  { intros z. apply NilZero.isi.
    - destruct z; simpl; try discriminate.
      intros E. injection E as E. exact (DecimalPos.Unsigned.to_uint_nonnil _ E).
    - destruct z; simpl; try discriminate.
      intros E. injection E as E. exact (DecimalPos.Unsigned.to_uint_nonnil _ E). }
  assert (E : Some (Z.to_int n) = Some (Z.to_int m))
    by (rewrite <- (Hn n), <- (Hn m), H; reflexivity).
  injection E as E.
  rewrite <- (DecimalZ.of_to n), <- (DecimalZ.of_to m), E. reflexivity.
Qed.

(** Under one query key, two string parameters, or two number parameters,
    share a cache key only when they are equal; two parameters that are
    booleans, arrays or objects share one only when their JSON texts are
    the same. *)
Theorem cacheKey_tells_params_apart :
  forall (key : string),
    (forall s s',
        queryKeyAndParamsToCacheKey key (JStr s) =
        queryKeyAndParamsToCacheKey key (JStr s') -> s = s')
    /\ (forall n n',
        queryKeyAndParamsToCacheKey key (JNum n) =
        queryKeyAndParamsToCacheKey key (JNum n') -> n = n')
    /\ (forall p q,
        typeof p = "boolean" \/ typeof p = "object" -> p <> JNull ->
        typeof q = "boolean" \/ typeof q = "object" -> q <> JNull ->
        queryKeyAndParamsToCacheKey key p = queryKeyAndParamsToCacheKey key q ->
        stringify p = stringify q).
Proof.
  intros key. split; [|split].
  - intros s s' H. unfold queryKeyAndParamsToCacheKey in H. simpl in H.
    apply append_cancel_l in H. injection H as H. exact H.
  - intros n n' H. unfold queryKeyAndParamsToCacheKey in H. simpl in H.
    apply append_cancel_l in H. injection H as H.
    apply numberToString_inj. exact H.
  - intros p q Hp Hpn Hq Hqn H.
    destruct p; try (destruct Hp as [Hp|Hp]; discriminate Hp); try (elim Hpn; reflexivity);
      destruct q; try (destruct Hq as [Hq|Hq]; discriminate Hq); try (elim Hqn; reflexivity);
      unfold queryKeyAndParamsToCacheKey in H; cbn [isUndefined isNull negb andb typeof includes existsb] in H;
      apply append_cancel_l in H;
      cbn [String.eqb Ascii.eqb Bool.eqb orb] in H;
      apply (append_cancel_l "-") in H;
      cbn [stringify textOf] in *; congruence.
Qed.

(* ================================================================== *)
(** * Two more edges *)
(* ================================================================== *)

(** A listener over a static parameter other than [undefined] that
    unsubscribes in the turn of its subscription has passed no subscribe
    event to the revalidation bus, the triggers being subscribed to a
    turn later, and still passes the unsubscribe event of [finalize]. *)
Theorem hasty_listener_closes_without_opening :
  forall (key : string) (query : QueryFn) (config : option QueryConfig)
         (windowFocus : Obs JsValue) (horizon : Time) (param : JsValue),
    param <> JUndefined ->
    summary (revalidated key (WithParam (StaticParam param) query config)
               windowFocus horizon 0) =
    [(0, QueryUnsubscribe, queryKeyAndParamsToCacheKey key param)].
Proof.
  intros key query config windowFocus horizon param Hp.
  assert (H : List.filter (fun ev : Time * Revalidator => fst ev <? 0)
                (events (triggers key (WithParam (StaticParam param) query config)
                           windowFocus horizon)) = []).
  { induction (events (triggers key (WithParam (StaticParam param) query config)
                         windowFocus horizon)) as [|ev l IH]; [reflexivity|].
    cbn [List.filter]. replace (fst ev <? 0) with false
      by (symmetry; apply Nat.ltb_ge; lia). exact IH. }
  unfold revalidated, unsubscribedAt. cbn [events]. rewrite H. cbn [app].
  unfold finalized, shift, map. cbn [events]. rewrite take_one_events.
  unfold params'.
  change (theQueryParam (WithParam (StaticParam param) query config))
    with (of_ param).
  rewrite (static_param_subscribes _ _ _ Hp). reflexivity.
Qed.

Lemma hasty_listener_example :
  summary (revalidated "k" (WithParam (StaticParam a_is_1) alwaysFails None)
             twoFocusEvents 10 0) =
  [(0, QueryUnsubscribe, queryKeyAndParamsToCacheKey "k" a_is_1)].
Proof.
  refine (@hasty_listener_closes_without_opening "k" alwaysFails None
            twoFocusEvents 10 a_is_1 _).
  discriminate.
Defined.

Lemma paramChanges_answer_values : forall cfg key inv evs previous t r,
  In (t, r) (paramChanges cfg key inv previous evs) ->
  (exists v, In (t, v) evs /\ r = subscribeTo cfg key inv v)
  \/ (exists v w,
        (v = previous \/ exists t', In (t', v) evs)
        /\ v <> JUndefined /\ In (t, w) evs
        /\ r = unsubscribeFrom cfg key inv v).
Proof.
  intros cfg key inv. induction evs as [|[t0 x] rest IH]; intros previous t r H;
    [destruct H|].
  cbn [paramChanges] in H.
  destruct (sameText (stringify previous) (stringify x)).
  - destruct (IH _ _ _ H) as [(v & Hv & ->) | (v & w & Hv & Hn & Hw & ->)].
    + left. exists v. split; [right; exact Hv | reflexivity].
    + right. exists v, w. repeat split; try assumption; [|right; exact Hw].
      destruct Hv as [Hv|[t' Hv]]; [left; exact Hv | right; exists t'; right; exact Hv].
  - apply in_app_or in H as [H|H].
    + destruct (isUndefined previous) eqn:E; [destruct H|].
      destruct H as [H|[]]. injection H as <- <-.
      right. exists previous, x. repeat split.
      * left. reflexivity.
      * intros ->. discriminate E.
      * left. reflexivity.
    + destruct H as [H|H].
      * injection H as <- <-. left. exists x. split; [left|]; reflexivity.
      * destruct (IH _ _ _ H) as [(v & Hv & ->) | (v & w & Hv & Hn & Hw & ->)].
        -- left. exists v. split; [right; exact Hv | reflexivity].
        -- right. exists v, w. repeat split; try assumption; [|right; exact Hw].
           destruct Hv as [->|[t' Hv]]; right;
             [exists t0; left; reflexivity | exists t'; right; exact Hv].
Qed.

(** The parameter trigger emits only in turns in which the parameter
    stream delivers a value: a subscribe event carries the value delivered
    in its turn, an unsubscribe event a value, other than [undefined], that
    the stream has delivered. *)
Theorem paramsTrigger_answers_delivered_values :
  forall (cfg : RequiredQueryConfig) (queryParam : Obs JsValue) (key : string)
         (inv : QueryInvoker) (t : Time) (r : Revalidator),
    In (t, r) (events (paramsTrigger cfg queryParam key inv)) ->
    (exists v, In (t, v) (events queryParam) /\ r = subscribeTo cfg key inv v)
    \/ (exists v w t',
          In (t', v) (events queryParam) /\ v <> JUndefined
          /\ In (t, w) (events queryParam)
          /\ r = unsubscribeFrom cfg key inv v).
Proof.
  intros cfg queryParam key inv t r H. rewrite paramsTrigger_events in H.
  destruct (paramChanges_answer_values _ _ _ _ _ _ _ H)
    as [Hs | (v & w & Hv & Hn & Hw & ->)]; [left; exact Hs|].
  right. destruct Hv as [->|[t' Hv]]; [elim Hn; reflexivity|].
  exists v, w, t'. repeat split; assumption.
Qed.

Lemma paramsTrigger_answers_example :
  (exists v, In (3, v) (events oneThenTwo)
             /\ subscribeTo DEFAULT_QUERY_CONFIG "k" noInvoker (JNum 2) =
                subscribeTo DEFAULT_QUERY_CONFIG "k" noInvoker v)
  \/ (exists v w t',
        In (t', v) (events oneThenTwo) /\ v <> JUndefined
        /\ In (3, w) (events oneThenTwo)
        /\ subscribeTo DEFAULT_QUERY_CONFIG "k" noInvoker (JNum 2) =
           unsubscribeFrom DEFAULT_QUERY_CONFIG "k" noInvoker v).
Proof.
  refine (@paramsTrigger_answers_delivered_values DEFAULT_QUERY_CONFIG oneThenTwo
            "k" noInvoker 3 _ _).
  simpl. right. right. left. reflexivity.
Defined.
